(** * SQL Compare Tool: schema comparator, diff rendering and deployment
      script generator

    A shallow embedding of the core of [sql_compare_tool]:
    - [core/comparator.py]   ([SchemaComparator]),
    - [core/diff_generator.py] ([DiffGenerator]),
    - [core/script_generator_backup.py] ([ScriptGenerator]).

    The Python code works on untyped JSON-like data (dicts, lists, strings,
    numbers, booleans, [None]).  The embedding keeps that shape: one type
    [value] of Python values, dictionaries as association lists in insertion
    order, and an exception raised by the interpreter ([AttributeError],
    [TypeError], [IndexError]) as [None] in the option monad. *)

From stdpp Require Import base option list strings gmap sorting pretty.
From Stdlib Require Import Ascii ZArith Lia.

Local Open Scope Z_scope.

(** ** Python values *)

Module Py.

(** JSON-like Python values.  Floats are not represented.  A [VDict] is a
    [dict] with [str] keys, listed in insertion order. *)
#[warnings="-register-all"]
Inductive value : Type :=
| VNone
| VBool (b : bool)
| VInt (z : Z)
| VStr (s : string)
| VList (l : list value)
| VDict (d : list (string * value)).

#[global] Instance value_inhabited : Inhabited value := populate VNone.

(** *** Strings

    A [str] is a byte string; case mapping and white space are Python's on
    ASCII text. *)

Definition chars (s : string) : list ascii := String.list_ascii_of_string s.
Definition str_of (l : list ascii) : string := String.string_of_list_ascii l.

Definition is_upper (c : ascii) : bool :=
  let n := nat_of_ascii c in (65 <=? n)%nat && (n <=? 90)%nat.
Definition is_lower (c : ascii) : bool :=
  let n := nat_of_ascii c in (97 <=? n)%nat && (n <=? 122)%nat.

Definition lower_char (c : ascii) : ascii :=
  if is_upper c then ascii_of_nat (nat_of_ascii c + 32) else c.
Definition upper_char (c : ascii) : ascii :=
  if is_lower c then ascii_of_nat (nat_of_ascii c - 32) else c.

(** [s.lower()] and [s.upper()] *)
Definition lower (s : string) : string := str_of (lower_char <$> chars s).
Definition upper (s : string) : string := str_of (upper_char <$> chars s).

(** [c.isspace()] on ASCII: space, [\t \n \v \f \r] and the separators
    [\x1c .. \x1f]. *)
Definition is_space (c : ascii) : bool :=
  let n := nat_of_ascii c in
  (n =? 32)%nat || ((9 <=? n)%nat && (n <=? 13)%nat)
  || ((28 <=? n)%nat && (n <=? 31)%nat).

Fixpoint lstrip_chars (l : list ascii) : list ascii :=
  match l with
  | c :: l' => if is_space c then lstrip_chars l' else l
  | [] => []
  end.

(** [s.strip()] *)
Definition strip (s : string) : string :=
  str_of (rev (lstrip_chars (rev (lstrip_chars (chars s))))).


(** [sep.join(parts)] *)
Fixpoint join (sep : string) (parts : list string) : string :=
  match parts with
  | [] => ""
  | [p] => p
  | p :: ps => p +:+ sep +:+ join sep ps
  end.

(** [needle in hay] on two [str]: some suffix of [hay] starts with
    [needle]. *)
Fixpoint is_prefix (p l : list ascii) : bool :=
  match p, l with
  | [], _ => true
  | a :: p', b :: l' => bool_decide (a = b) && is_prefix p' l'
  | _ :: _, [] => false
  end.

Fixpoint occurs (p l : list ascii) : bool :=
  is_prefix p l ||
  match l with
  | [] => false
  | _ :: l' => occurs p l'
  end.

Definition str_in (needle hay : string) : bool :=
  occurs (chars needle) (chars hay).

(** Some proper, non-empty prefix of [m] ends [x]; some proper, non-empty
    suffix of [m] starts [y]: how an occurrence of [m] in [x ++ y] can lie
    across the two. *)
Definition prefix_ends (m x : list ascii) : bool :=
  existsb (fun i => is_prefix (rev (take i m)) (rev x)) (seq 1 (length m - 1)).

Definition suffix_starts (m y : list ascii) : bool :=
  existsb (fun i => is_prefix (drop i m) y) (seq 1 (length m - 1)).

(** [s.split(c)] for a one-character separator: the fields between the
    occurrences of [c], in order. *)
Fixpoint split_chars (c : ascii) (cur : list ascii) (l : list ascii)
  : list (list ascii) :=
  match l with
  | [] => [rev cur]
  | a :: l' =>
      if bool_decide (a = c) then rev cur :: split_chars c [] l'
      else split_chars c (a :: cur) l'
  end.

Definition split (s : string) (c : ascii) : list string :=
  str_of <$> split_chars c [] (chars s).

(** [s.rsplit(c, 1)]: split once, at the last occurrence of [c]. *)
Definition rsplit1 (s : string) (c : ascii) : list string :=
  match split s c with
  | [] => [s]
  | [f] => [f]
  | fs => [join (String c "") (removelast fs); List.last fs ""]
  end.

(** [s.replace(a, b)] for one-character [a] and [b] *)
Definition replace_char (a b : ascii) (s : string) : string :=
  str_of ((fun c => if bool_decide (c = a) then b else c) <$> chars s).

(** [s[:-1]] *)
Definition drop_last (s : string) : string := str_of (removelast (chars s)).

(** *** [repr] and [str] *)

Definition hex_digit (n : nat) : ascii :=
  if (n <? 10)%nat then ascii_of_nat (48 + n) else ascii_of_nat (87 + n).

Definition backslash : ascii := ascii_of_nat 92.
Definition dquote : ascii := ascii_of_nat 34.
Definition squote : ascii := ascii_of_nat 39.

(** One character of [repr(s)] inside the quotes [q]. *)
Definition repr_char (q c : ascii) : list ascii :=
  let n := nat_of_ascii c in
  if bool_decide (c = q) || bool_decide (c = backslash) then [backslash; c]
  else if (n =? 9)%nat then [backslash; "t"%char]
  else if (n =? 10)%nat then [backslash; "n"%char]
  else if (n =? 13)%nat then [backslash; "r"%char]
  else if (n <? 32)%nat || (n =? 127)%nat then
    [backslash; "x"%char; hex_digit (n / 16); hex_digit (n mod 16)]
  else [c].

(** [repr(s)] of a [str]: single quotes, unless [s] has a single quote and
    no double quote. *)
Definition repr_str (s : string) : string :=
  let cs := chars s in
  let q := if bool_decide (squote ∈ cs) && negb (bool_decide (dquote ∈ cs))
           then dquote else squote in
  str_of (q :: (cs ≫= repr_char q) ++ [q]).

Fixpoint repr (v : value) : string :=
  match v with
  | VNone => "None"
  | VBool b => if b then "True" else "False"
  | VInt z => pretty z
  | VStr s => repr_str s
  | VList l => "[" +:+ join ", " (repr <$> l) +:+ "]"
  | VDict d =>
      "{" +:+ join ", " ((fun kv => repr_str (fst kv) +:+ ": " +:+ repr (snd kv)) <$> d)
      +:+ "}"
  end.

(** [str(v)], also what an f-string interpolates *)
Definition str (v : value) : string :=
  match v with
  | VStr s => s
  | _ => repr v
  end.

(** *** Truth value, equality, dictionaries *)

(** [bool(v)] *)
Definition truthy (v : value) : bool :=
  match v with
  | VNone => false
  | VBool b => b
  | VInt z => negb (z =? 0)
  | VStr s => negb (String.eqb s "")
  | VList l => negb (bool_decide (l = []))
  | VDict d => negb (bool_decide (d = []))
  end.

(** [x or y] *)
Definition or_else (x y : value) : value := if truthy x then x else y.

Fixpoint dict_lookup {A} (k : string) (d : list (string * A)) : option A :=
  match d with
  | [] => None
  | (k', v) :: d' => if String.eqb k k' then Some v else dict_lookup k d'
  end.

(** [a == b]: [bool] is a subtype of [int] ([True == 1]); lists are equal
    element by element, dicts key by key whatever the order. *)
Fixpoint py_eq (a b : value) {struct a} : bool :=
  match a, b with
  | VNone, VNone => true
  | VBool x, VBool y => Bool.eqb x y
  | VBool x, VInt y => Z.b2z x =? y
  | VInt x, VBool y => x =? Z.b2z y
  | VInt x, VInt y => x =? y
  | VStr x, VStr y => String.eqb x y
  | VList xs, VList ys =>
      (fix go (xs ys : list value) : bool :=
         match xs, ys with
         | [], [] => true
         | x :: xs', y :: ys' => py_eq x y && go xs' ys'
         | _, _ => false
         end) xs ys
  | VDict xs, VDict ys =>
      (length xs =? length ys)%nat
      && forallb (fun kv => match dict_lookup (fst kv) ys with
                            | Some w => py_eq (snd kv) w
                            | None => false
                            end) xs
  | _, _ => false
  end.

(** Every dict inside [v] has distinct keys, as every Python dict has. *)
Fixpoint wf (v : value) : bool :=
  match v with
  | VList l => forallb wf l
  | VDict d => bool_decide (NoDup (fst <$> d)) && forallb (fun kv => wf (snd kv)) d
  | _ => true
  end.

(** [d.get(k, dflt)]; an [AttributeError] when [d] is not a dict. *)
Definition get (d : value) (k : string) (dflt : value) : option value :=
  match d with
  | VDict kvs => Some (default dflt (dict_lookup k kvs))
  | _ => None
  end.

(** Iterating a list value.  Iterating an [int], a [bool] or [None] raises
    [TypeError]; iterating a [str] or a [dict] is outside the data model
    and is not represented. *)
Definition iter (v : value) : option (list value) :=
  match v with
  | VList l => Some l
  | _ => None
  end.

(** A value used as a [str] receiver ([v.lower()], [v.split(..)]): an
    [AttributeError] otherwise. *)
Definition as_str (v : value) : option string :=
  match v with
  | VStr s => Some s
  | _ => None
  end.

(** A value used as a dict receiver ([v.get(..)]). *)
Definition as_dict (v : value) : option (list (string * value)) :=
  match v with
  | VDict d => Some d
  | _ => None
  end.

(** [d.get(k, dflt)] on a dict *)
Definition dget (d : list (string * value)) (k : string) (dflt : value) : value :=
  default dflt (dict_lookup k d).

(** [d[k] = v] on a dict with [str] keys: in place for a key of [d], else
    appended. *)
Fixpoint dict_set {A} (k : string) (v : A) (d : list (string * A))
  : list (string * A) :=
  match d with
  | [] => [(k, v)]
  | (k', v') :: d' =>
      if String.eqb k k' then (k', v) :: d' else (k', v') :: dict_set k v d'
  end.

(** [hash(v)] is defined: a list or a dict as a dict key raises
    [TypeError]. *)
Definition hashable (v : value) : bool :=
  match v with
  | VList _ | VDict _ => false
  | _ => true
  end.

(** Dicts keyed by arbitrary hashable values, as the comprehensions
    [{c.get("name"): c for c in ..}] build them: keys are compared with
    [==]. *)
Fixpoint kv_lookup {A} (k : value) (d : list (value * A)) : option A :=
  match d with
  | [] => None
  | (k', v) :: d' => if py_eq k k' then Some v else kv_lookup k d'
  end.

Fixpoint kv_set {A} (k : value) (v : A) (d : list (value * A))
  : list (value * A) :=
  match d with
  | [] => [(k, v)]
  | (k', v') :: d' =>
      if py_eq k k' then (k', v) :: d' else (k', v') :: kv_set k v d'
  end.

(** [{k: v for (k, v) in kvs}] *)
Definition kv_dict {A} (kvs : list (value * A)) : option (list (value * A)) :=
  foldl (fun acc kv => d ← acc;
                       if hashable (fst kv) then Some (kv_set (fst kv) (snd kv) d)
                       else None)
        (Some []) kvs.


(** [d.get(k, dflt)] where the key [k] is itself a value. *)
Definition get_key (d : value) (k : value) (dflt : value) : option value :=
  kvs ← as_dict d;
  match k with
  | VStr s => Some (dget kvs s dflt)
  | _ => if hashable k then Some dflt else None
  end.

(** [v > 0]: a [TypeError] unless [v] is a number. *)
Definition gt0 (v : value) : option bool :=
  match v with
  | VInt z => Some (0 <? z)
  | VBool b => Some b
  | _ => None
  end.

Definition is_none (v : value) : bool :=
  match v with
  | VNone => true
  | _ => false
  end.

(** The newline character, as a [str]. *)
Definition NL : string := String (ascii_of_nat 10) "".

(** [[x for x in xs if p(x)]] where [p] may raise. *)
Fixpoint filterM {A} (p : A -> option bool) (xs : list A) : option (list A) :=
  match xs with
  | [] => Some []
  | x :: xs' =>
      b ← p x;
      ys ← filterM p xs';
      Some (if b : bool then x :: ys else ys)
  end.

(** [lines.extend(f(x)) for x in xs] where [f] may raise. *)
Definition flat_mapM {A B} (f : A -> option (list B)) (xs : list A)
  : option (list B) :=
  mjoin <$> mapM f xs.

End Py.

(** ** [core/comparator.py] *)

Module Comparator.
Import Py.

(** The values of the [STATUS] table. *)
Definition IDENTICAL : string := "IDENTICAL".
Definition DIFFERENT : string := "DIFFERENT".
Definition MISSING_IN_TARGET : string := "MISSING_IN_TARGET".
Definition MISSING_IN_SOURCE : string := "MISSING_IN_SOURCE".

(** The object types [compare] loops over, in its order. *)
Definition OBJ_TYPES : list string :=
  [ "tables"; "views"; "procedures"; "functions"; "triggers"; "users";
    "roles"; "schemas"; "synonyms"; "extended_properties";
    "check_constraints"; "default_constraints"; "unique_constraints";
    "user_defined_types"; "sequences" ].

(** [DeepDiff(src, tgt, ignore_order=True)] of the third-party [deepdiff]
    package reports nothing, as the package documents it: scalars must have
    the same type and value; dicts the same keys with values that do not
    differ; lists are compared as sets of items, whatever their order and
    repetitions. *)
Fixpoint deep_same (a b : value) {struct a} : bool :=
  match a, b with
  | VNone, VNone => true
  | VBool x, VBool y => Bool.eqb x y
  | VInt x, VInt y => x =? y
  | VStr x, VStr y => String.eqb x y
  | VList xs, VList ys =>
      forallb (fun x => existsb (deep_same x) ys) xs
      && forallb (fun y => existsb (fun x => deep_same x y) xs) ys
  | VDict xs, VDict ys =>
      forallb (fun kv => match dict_lookup (fst kv) ys with
                         | Some w => deep_same (snd kv) w
                         | None => false
                         end) xs
      && forallb (fun kv => bool_decide (is_Some (dict_lookup (fst kv) xs))) ys
  | _, _ => false
  end.

(** A metadata snapshot, [Dict[str, Dict[str, Any]]]: object type, then
    qualified name, then the object-detail record. *)
Abbreviation snapshot := (gmap string (gmap string value)).

(** A comparison result, [Dict[str, List[Dict[str, Any]]]], in insertion
    order. *)
Abbreviation results := (list (string * list value)).

(** [sorted(keys)] of a set of [str]: the keys in lexicographic order. *)
Definition sorted (keys : gset string) : list string :=
  merge_sort String.le (elements keys).

(** [{"name": key, "status": status, "details": details}] *)
Definition item (key status : string) (details : value) : value :=
  VDict [("name", VStr key); ("status", VStr status); ("details", details)].

Section compare.

(** The text between the braces of [diff.to_json()], which is a JSON object;
    its content is the [deepdiff] package's and is left open. *)
Variable diff_body : value -> value -> string.

Definition to_json (src tgt : value) : string :=
  "{" +:+ diff_body src tgt +:+ "}".

Definition _diff (src tgt : value) : string :=
  if deep_same src tgt then "" else to_json src tgt.

(** The body of the loop over [sorted(all_keys)]: the item appended for
    [key].  [d.get(key)] is [None] for a missing key. *)
Definition compare_key (src_objs tgt_objs : gmap string value) (key : string)
  : value :=
  let src := default VNone (src_objs !! key) in
  let tgt := default VNone (tgt_objs !! key) in
  if truthy src && negb (truthy tgt) then item key MISSING_IN_TARGET src
  else if truthy tgt && negb (truthy src) then item key MISSING_IN_SOURCE tgt
  else
    let diff := _diff src tgt in
    if negb (truthy (VStr diff)) then item key IDENTICAL src
    else item key DIFFERENT
           (VDict [("source", src); ("target", tgt); ("diff", VStr diff)]).

Definition compare_type (source target : snapshot) (obj_type : string)
  : list value :=
  let src_objs := default ∅ (source !! obj_type) in
  let tgt_objs := default ∅ (target !! obj_type) in
  let all_keys := dom src_objs ∪ dom tgt_objs in
  compare_key src_objs tgt_objs <$> sorted all_keys.

Definition compare (source target : snapshot) : results :=
  (fun obj_type => (obj_type, compare_type source target obj_type)) <$> OBJ_TYPES.

End compare.

(** [d[k]]: a [KeyError] for a missing key, a [TypeError] when [d] is not a
    dict. *)
Definition subscript (d : value) (k : string) : option value :=
  kvs ← as_dict d; dict_lookup k kvs.

(** The values of [STATUS], in the order of the table. *)
Definition STATUSES : list string :=
  [IDENTICAL; DIFFERENT; MISSING_IN_TARGET; MISSING_IN_SOURCE].

(** [summarize]: [summary[item["status"]] += 1] over every item of every
    list; a status that is no key of [summary] raises [KeyError]. *)
Definition summarize (r : results) : option (list (string * Z)) :=
  foldl (fun acc item =>
           summary ← acc;
           status ← subscript item "status" ≫= as_str;
           n ← dict_lookup status summary;
           Some (dict_set status (n + 1) summary))
        (Some ((fun k => (k, 0)) <$> STATUSES))
        (r ≫= snd).

(** The sum of the counters of a summary. *)
Definition total (summary : list (string * Z)) : Z :=
  foldr Z.add 0 (snd <$> summary).

(** [results.get(obj_type, [])] *)
Definition results_get (r : results) (obj_type : string) : list value :=
  default [] (dict_lookup obj_type r).

End Comparator.

(** ** [core/diff_generator.py] *)

Module DiffGenerator.
Import Py.
Local Open Scope nat_scope.

(** [c] ends a line for [str.splitlines] (ASCII): [\n \v \f \r] and the
    separators [\x1c \x1d \x1e]. *)
Definition is_linebreak (c : ascii) : bool :=
  let n := nat_of_ascii c in
  ((10 <=? n)%nat && (n <=? 13)%nat) || ((28 <=? n)%nat && (n <=? 30)%nat).

Fixpoint splitlines_chars (cur : list ascii) (l : list ascii) : list (list ascii) :=
  match l with
  | [] => match cur with [] => [] | _ => [rev cur] end
  | c :: l' =>
      if is_linebreak c then
        rev cur ::
        match l' with
        | c' :: l'' =>
            if (nat_of_ascii c =? 13)%nat && (nat_of_ascii c' =? 10)%nat
            then splitlines_chars [] l''
            else splitlines_chars [] l'
        | [] => splitlines_chars [] l'
        end
      else splitlines_chars (c :: cur) l'
  end.

(** [s.splitlines()] *)
Definition splitlines (s : string) : list string :=
  str_of <$> splitlines_chars [] (chars s).

(** The state of a [DiffGenerator]: the lines of the two texts. *)
Record t := mk { source : list string; target : list string }.

(** [__init__]: [(source_sql or "").splitlines()], the same for the target. *)
Definition init (source_sql target_sql : value) : option t :=
  s ← as_str (or_else source_sql (VStr ""));
  t ← as_str (or_else target_sql (VStr ""));
  Some (mk (splitlines s) (splitlines t)).

(** One entry of [SequenceMatcher.get_opcodes()]: [(tag, i1, i2, j1, j2)]. *)
Record opcode := Op { tag : string; a0 : nat; a1 : nat; b0 : nat; b1 : nat }.

(** A row of the side-by-side view: [(left_line, right_line, tag)]. *)
Abbreviation row := (string * string * string)%type.

(** [range(i, j)] *)
Definition range (i j : nat) : list nat := seq i (j - i).

(** The rows one opcode adds to [output]; [l[i]] raises [IndexError] out of
    range. *)
Definition opcode_rows (self : t) (op : opcode) : option (list row) :=
  if String.eqb (tag op) "equal" then
    mapM (fun i => l ← source self !! i;
                   r ← target self !! (b0 op + (i - a0 op))%nat;
                   Some (l, r, "same"))
         (range (a0 op) (a1 op))
  else if String.eqb (tag op) "insert" then
    mapM (fun j => r ← target self !! j; Some ("", r, "del"))
         (range (b0 op) (b1 op))
  else if String.eqb (tag op) "delete" then
    mapM (fun i => l ← source self !! i; Some (l, "", "add"))
         (range (a0 op) (a1 op))
  else if String.eqb (tag op) "replace" then
    let max_len := (a1 op - a0 op) `max` (b1 op - b0 op) in
    mapM (fun k =>
            left ← (if (a0 op + k <? a1 op)%nat then source self !! (a0 op + k)%nat
                    else Some "");
            right ← (if (b0 op + k <? b1 op)%nat then target self !! (b0 op + k)%nat
                     else Some "");
            Some (left, right, "chg"))
         (range 0 max_len)
  else Some [].

Section side_by_side.

(** [difflib.SequenceMatcher(a=.., b=..).get_opcodes()], of Python's standard
    library. *)
Variable get_opcodes : list string -> list string -> list opcode.

Definition side_by_side (self : t) : option (list row) :=
  mjoin <$> mapM (opcode_rows self) (get_opcodes (source self) (target self)).

End side_by_side.

(** What [difflib] documents of the opcodes it returns for [a] and [b]:
    [i1 <= i2 <= len(a)], [j1 <= j2 <= len(b)], and [a[i1:i2] == b[j1:j2]]
    for an [equal] opcode. *)
Definition slice {A} (l : list A) (i j : nat) : list A := take (j - i) (drop i l).

Definition opcode_ok (a b : list string) (op : opcode) : bool :=
  bool_decide (a0 op ≤ a1 op ∧ a1 op ≤ length a)%nat
  && bool_decide (b0 op ≤ b1 op ∧ b1 op ≤ length b)%nat
  && (negb (String.eqb (tag op) "equal")
      || bool_decide (slice a (a0 op) (a1 op) = slice b (b0 op) (b1 op))).

(** The rows of a span in the words of the specification.  A replace span
    pairs the two blocks line by line up to the length of the longer one, the
    shorter one padded with empty strings. *)
Fixpoint pad_pairs (ls rs : list string) : list row :=
  match ls, rs with
  | [], [] => []
  | l :: ls', [] => (l, "", "chg") :: pad_pairs ls' []
  | [], _ :: _ => (fun r => ("", r, "chg")) <$> rs
  | l :: ls', r :: rs' => (l, r, "chg") :: pad_pairs ls' rs'
  end.

Definition span_rows (a b : list string) (op : opcode) : list row :=
  let left := slice a (a0 op) (a1 op) in
  let right := slice b (b0 op) (b1 op) in
  if String.eqb (tag op) "equal" then (fun l => (l, l, "same")) <$> left
  else if String.eqb (tag op) "insert" then (fun r => ("", r, "del")) <$> right
  else if String.eqb (tag op) "delete" then (fun l => (l, "", "add")) <$> left
  else if String.eqb (tag op) "replace" then pad_pairs left right
  else [].

(** What [difflib] documents of the whole list of opcodes for two lists of
    lengths [n] and [m]: the first tuple has [i1 == j1 == 0], every other
    tuple starts where the preceding one ends, and the list describes how to
    turn all of [a] into all of [b]; the tag is one of the four; an [insert]
    has [i1 == i2], a [delete] has [j1 == j2], and an [equal] has two blocks
    of one length.  [i] and [j] are where the tuple has to start. *)
Definition tile_ok (i j : nat) (op : opcode) : bool :=
  (a0 op =? i) && (b0 op =? j) && (a0 op <=? a1 op) && (b0 op <=? b1 op)
  && bool_decide (tag op ∈ ["equal"; "insert"; "delete"; "replace"])
  && (negb (String.eqb (tag op) "insert") || (a0 op =? a1 op))
  && (negb (String.eqb (tag op) "delete") || (b0 op =? b1 op))
  && (negb (String.eqb (tag op) "equal") || (a1 op - a0 op =? b1 op - b0 op)).

Fixpoint opcodes_tile (i j : nat) (ops : list opcode) (n m : nat) : bool :=
  match ops with
  | [] => (i =? n) && (j =? m)
  | op :: ops' => tile_ok i j op && opcodes_tile (a1 op) (b1 op) ops' n m
  end.

End DiffGenerator.

(** ** [core/script_generator_backup.py] *)

Module ScriptGenerator.
Import Py.
Import Comparator.

(** The state of a [ScriptGenerator], as [__init__] leaves it. *)
Record t := mk {
  results : Comparator.results;
  source_metadata : value;
  target_db : string;
  deploy_options : list (string * value)
}.

Definition defaults : list (string * value) :=
  [ ("wrap_in_transaction", VBool true);
    ("include_drop_phase", VBool true);
    ("include_table_phase", VBool true);
    ("include_constraint_phase", VBool true);
    ("include_programmability_phase", VBool true);
    ("include_misc_phase", VBool true);
    ("include_rollback_section", VBool true) ].

(** [__init__]: the defaults, updated with the caller's options when it
    gives any. *)
Definition init (comparison_result : Comparator.results) (source_metadata : value)
    (target_db : string) (deploy_options : option (list (string * value))) : t :=
  mk comparison_result source_metadata target_db
     (match deploy_options with
      | Some opts => foldl (fun d kv => dict_set (fst kv) (snd kv) d) defaults opts
      | None => defaults
      end).

(** [self.deploy_options.get(name, True)] as a condition *)
Definition option_on (self : t) (name : string) : bool :=
  truthy (dget (deploy_options self) name (VBool true)).

(** [item.get("status") == status] *)
Definition has_status (status : string) (item : value) : option bool :=
  st ← get item "status" VNone;
  Some (py_eq st (VStr status)).

(** *** Columns *)

(** The texts that [_is_nullable] reads as nullable. *)
Definition NULLABLE_TEXTS : list string := ["YES"; "Y"; "TRUE"; "1"].

(** [_is_nullable] *)
Definition _is_nullable (col : value) : option bool :=
  nullable ← get col "is_nullable" VNone;
  if is_none nullable then Some true
  else
    let text := upper (strip (str nullable)) in
    Some (bool_decide (text ∈ NULLABLE_TEXTS)).

(** [_format_column_type] *)
Definition _format_column_type (col : value) : option string :=
  c ← as_dict col;
  data_type ← lower <$> as_str (or_else (dget c "data_type" VNone) (VStr ""));
  let max_len := dget c "max_length" VNone in
  let precision := dget c "precision" VNone in
  let scale := dget c "scale" VNone in
  let type_str := upper data_type in
  if bool_decide (data_type ∈ ["varchar"; "nvarchar"; "char"; "nchar"; "binary"; "varbinary"])
  then
    if py_eq max_len (VInt (-1)) then Some (type_str +:+ "(MAX)")
    else if truthy max_len then
      pos ← gt0 max_len;
      Some (if pos : bool then type_str +:+ "(" +:+ str max_len +:+ ")" else type_str)
    else Some type_str
  else if bool_decide (data_type ∈ ["decimal"; "numeric"]) && truthy precision then
    if negb (is_none scale)
    then Some (type_str +:+ "(" +:+ str precision +:+ "," +:+ str scale +:+ ")")
    else Some (type_str +:+ "(" +:+ str precision +:+ ")")
  else Some type_str.

(** [_format_full_column_definition] *)
Definition _format_full_column_definition (col : value) : option string :=
  c ← as_dict col;
  let col_name := dget c "name" (VStr "") in
  if truthy (dget c "is_computed" VNone) then
    let computed_def := dget c "computed_definition" (VStr "") in
    let persisted := if truthy (dget c "is_persisted" VNone) then " PERSISTED" else "" in
    Some ("[" +:+ str col_name +:+ "] AS " +:+ str computed_def +:+ persisted)
  else
    type_str ← _format_column_type col;
    nullable ← _is_nullable col;
    let parts :=
      ["[" +:+ str col_name +:+ "]"; type_str]
      ++ (if truthy (dget c "collation" VNone)
          then ["COLLATE " +:+ str (dget c "collation" VNone)] else [])
      ++ (if truthy (dget c "is_sparse" VNone) then ["SPARSE"] else [])
      ++ [if nullable : bool then "NULL" else "NOT NULL"]
      ++ (if truthy (dget c "is_identity" VNone)
          then ["IDENTITY(" +:+ str (dget c "identity_seed" (VInt 1)) +:+ ","
                +:+ str (dget c "identity_increment" (VInt 1)) +:+ ")"]
          else [])
      ++ (if truthy (dget c "is_rowguidcol" VNone) then ["ROWGUIDCOL"] else [])
      ++ (let default_val := dget c "default_value" VNone in
          if truthy default_val then ["DEFAULT " +:+ str default_val] else [])
    in
    Some (join " " parts).

(** [_column_signature]: the tuple, as the list of its fifteen components. *)
Definition _column_signature (col : value) : option (list value) :=
  c ← as_dict col;
  data_type ← lower <$> as_str (or_else (dget c "data_type" VNone) (VStr ""));
  nullable ← _is_nullable col;
  let is_identity := truthy (dget c "is_identity" VNone) in
  let is_computed := truthy (dget c "is_computed" VNone) in
  Some
    [ VStr data_type;
      dget c "max_length" VNone;
      dget c "precision" VNone;
      dget c "scale" VNone;
      VBool nullable;
      (if negb (is_none (dget c "default_value" VNone))
       then VStr (str (dget c "default_value" VNone)) else VNone);
      dget c "is_identity" (VBool false);
      (if is_identity then dget c "identity_seed" VNone else VNone);
      (if is_identity then dget c "identity_increment" VNone else VNone);
      dget c "is_computed" (VBool false);
      (if is_computed then dget c "computed_definition" VNone else VNone);
      (if is_computed then dget c "is_persisted" (VBool false) else VNone);
      dget c "collation" VNone;
      dget c "is_sparse" (VBool false);
      dget c "is_rowguidcol" (VBool false) ].

(** [sig_a != sig_b] on two signature tuples *)
Definition signature_differs (sig_a sig_b : list value) : bool :=
  negb (py_eq (VList sig_a) (VList sig_b)).

(** [{c.get("name"): c for c in table.get("columns", []) if c.get("name")}] *)
Definition columns_by_name (table : value) : option (list (value * value)) :=
  cols ← get table "columns" (VList []) ≫= iter;
  named ← filterM (fun c => truthy <$> get c "name" VNone) cols;
  kvs ← mapM (fun c => name ← get c "name" VNone; Some (name, c)) named;
  kv_dict kvs.

(** [_compare_columns]: [(added, removed, changed)] *)
Definition _compare_columns (source_table target_table : value)
  : option (list value * list value * list (value * value)) :=
  src_cols ← columns_by_name source_table;
  tgt_cols ← columns_by_name target_table;
  added ← Some (snd <$> filter (fun kv => kv_lookup (fst kv) tgt_cols = None) src_cols);
  changed ←
    flat_mapM (fun kv : value * value =>
                 match kv_lookup (fst kv) tgt_cols with
                 | None => Some []
                 | Some tgt_col =>
                     sig_src ← _column_signature (snd kv);
                     sig_tgt ← _column_signature tgt_col;
                     Some (if signature_differs sig_src sig_tgt
                           then [(snd kv, tgt_col)] else [])
                 end) src_cols;
  removed ← Some (snd <$> filter (fun kv => kv_lookup (fst kv) src_cols = None) tgt_cols);
  Some (added, removed, changed).



(** *** Statements *)

(** [", ".join([f"[{col}]" for col in columns])] *)
Definition bracket_list (columns : value) : option string :=
  cols ← iter columns;
  Some (join ", " ((fun col => "[" +:+ str col +:+ "]") <$> cols)).

(** [_create_table_statement] *)
Definition _create_table_statement (self : t) (table_name : value)
  : option (list string) :=
  tables_metadata ← get (source_metadata self) "tables" (VDict []);
  table_data ← get_key tables_metadata table_name (VDict []);
  columns ← get table_data "columns" (VList []);
  if negb (truthy columns) then
    Some ["-- TODO: CREATE TABLE " +:+ str table_name +:+ " (no column metadata available)"]
  else
    cols ← iter columns;
    col_defs ← mapM (fun col => col_def ← _format_full_column_definition col;
                                Some ("    " +:+ col_def)) cols;
    Some [ "PRINT 'Creating table " +:+ str table_name +:+ "...';";
           "CREATE TABLE " +:+ str table_name +:+ " (";
           join ("," +:+ NL) col_defs;
           ");";
           "GO";
           "" ].

(** [_alter_table_columns] *)
Definition _alter_table_columns (table_name details : value) : option (list string) :=
  name ← as_str table_name;
  if negb (length (split name ".") =? 2)%nat then
    Some ["-- Unable to ALTER TABLE " +:+ name +:+ " (invalid name format)"]
  else
    source_table ← (fun v => or_else v (VDict [])) <$> get details "source" VNone;
    target_table ← (fun v => or_else v (VDict [])) <$> get details "target" VNone;
    '(added, removed, changed) ← _compare_columns source_table target_table;
    match added, removed, changed with
    | [], [], [] =>
        Some [ "PRINT 'Modifying table " +:+ name +:+ "...';";
               "-- No column-level differences detected for " +:+ name;
               "" ]
    | _, _, _ =>
        add_lines ←
          mapM (fun col => col_def ← _format_full_column_definition col;
                           Some ("ALTER TABLE " +:+ name +:+ " ADD " +:+ col_def +:+ ";"))
               added;
        drop_lines ←
          flat_mapM (fun col =>
                       col_name ← get col "name" (VStr "");
                       Some [ "-- WARNING: Dropping column [" +:+ str col_name +:+ "] from "
                                +:+ name +:+ " may cause data loss.";
                              "ALTER TABLE " +:+ name +:+ " DROP COLUMN ["
                                +:+ str col_name +:+ "];" ])
                    removed;
        change_lines ←
          flat_mapM (fun st : value * value =>
                       let '(src_col, tgt_col) := st in
                       s ← as_dict src_col;
                       g ← as_dict tgt_col;
                       let col_name := dget s "name" (VStr "") in
                       let src_identity := dget s "is_identity" (VBool false) in
                       let tgt_identity := dget g "is_identity" (VBool false) in
                       let src_computed := dget s "is_computed" (VBool false) in
                       let tgt_computed := dget g "is_computed" (VBool false) in
                       if negb (py_eq src_identity tgt_identity)
                          || negb (py_eq src_computed tgt_computed)
                       then
                         col_def ← _format_full_column_definition src_col;
                         Some [ "-- WARNING: Cannot ALTER identity/computed column ["
                                  +:+ str col_name +:+ "]. Using DROP + ADD pattern.";
                                "-- This may cause data loss. Consider manual migration if data preservation is needed.";
                                "ALTER TABLE " +:+ name +:+ " DROP COLUMN ["
                                  +:+ str col_name +:+ "];";
                                "ALTER TABLE " +:+ name +:+ " ADD " +:+ col_def +:+ ";" ]
                       else
                         type_str ← _format_column_type src_col;
                         nullable ← _is_nullable src_col;
                         let nullable_str := if nullable : bool then "NULL" else "NOT NULL" in
                         let collation_changed :=
                           negb (py_eq (dget s "collation" VNone) (dget g "collation" VNone)) in
                         let collate_clause :=
                           if truthy (dget s "collation" VNone) && collation_changed
                           then " COLLATE " +:+ str (dget s "collation" VNone) else "" in
                         Some [ "-- NOTE: Changing definition of column [" +:+ str col_name
                                  +:+ "] on " +:+ name +:+ ". Review for potential data impact.";
                                "ALTER TABLE " +:+ name +:+ " ALTER COLUMN [" +:+ str col_name
                                  +:+ "] " +:+ type_str +:+ collate_clause +:+ " "
                                  +:+ nullable_str +:+ ";" ])
                    changed;
        Some (["PRINT 'Modifying table " +:+ name +:+ "...';"]
              ++ add_lines ++ drop_lines ++ change_lines ++ [""])
    end.

(** [_create_primary_key_from_table_metadata] *)
Definition _create_primary_key_from_table_metadata (table_name pk : value)
  : option (list string) :=
  pk_name ← get pk "name" (VStr "");
  columns ← get pk "columns" (VList []);
  if negb (truthy columns) then
    Some ["-- TODO: CREATE PRIMARY KEY on " +:+ str table_name +:+ " (no column information)"]
  else
    col_list ← bracket_list columns;
    Some [ "PRINT 'Adding primary key " +:+ str pk_name +:+ " on " +:+ str table_name +:+ "...';";
           "ALTER TABLE " +:+ str table_name +:+ " ADD CONSTRAINT [" +:+ str pk_name
             +:+ "] PRIMARY KEY (" +:+ col_list +:+ ");";
           "GO";
           "" ].

(** [_create_unique_constraint_statement] *)
Definition _create_unique_constraint_statement (uq_item : value) : option (list string) :=
  name ← get uq_item "name" (VStr "");
  details ← get uq_item "details" (VDict []);
  source_uq ← get details "source" (VDict []);
  columns ← get source_uq "columns" (VList []);
  if negb (truthy columns) then
    Some ["-- TODO: CREATE UNIQUE CONSTRAINT " +:+ str name +:+ " (no column information)"]
  else
    qualified ← as_str name;
    match rsplit1 qualified "." with
    | [table_name; uq_name] =>
        col_list ← bracket_list columns;
        Some [ "ALTER TABLE " +:+ table_name +:+ " ADD CONSTRAINT [" +:+ uq_name
                 +:+ "] UNIQUE (" +:+ col_list +:+ ");";
               "" ]
    | _ =>
        Some ["-- TODO: CREATE UNIQUE CONSTRAINT " +:+ qualified +:+ " (invalid name format)"]
    end.

(** [_create_check_constraint_statement] *)
Definition _create_check_constraint_statement (chk_item : value) : option (list string) :=
  name ← get chk_item "name" (VStr "");
  details ← get chk_item "details" (VDict []);
  source_chk ← get details "source" (VDict []);
  definition ← get source_chk "definition" (VStr "");
  if negb (truthy definition) then
    Some ["-- TODO: CREATE CHECK CONSTRAINT " +:+ str name +:+ " (no definition)"]
  else
    qualified ← as_str name;
    match rsplit1 qualified "." with
    | [table_name; chk_name] =>
        Some [ "ALTER TABLE " +:+ table_name +:+ " ADD CONSTRAINT [" +:+ chk_name
                 +:+ "] CHECK " +:+ str definition +:+ ";";
               "" ]
    | _ =>
        Some ["-- TODO: CREATE CHECK CONSTRAINT " +:+ qualified +:+ " (invalid name format)"]
    end.

(** [_create_default_constraint_statement] *)
Definition _create_default_constraint_statement (df_item : value) : option (list string) :=
  name ← get df_item "name" (VStr "");
  details ← get df_item "details" (VDict []);
  source_df ← get details "source" (VDict []);
  column ← get source_df "column" (VStr "");
  definition ← get source_df "definition" (VStr "");
  if negb (truthy column) || negb (truthy definition) then
    Some ["-- TODO: CREATE DEFAULT CONSTRAINT " +:+ str name +:+ " (missing information)"]
  else
    qualified ← as_str name;
    match rsplit1 qualified "." with
    | [table_name; df_name] =>
        Some [ "ALTER TABLE " +:+ table_name +:+ " ADD CONSTRAINT [" +:+ df_name
                 +:+ "] DEFAULT " +:+ str definition +:+ " FOR [" +:+ str column +:+ "];";
               "" ]
    | _ =>
        Some ["-- TODO: CREATE DEFAULT CONSTRAINT " +:+ qualified +:+ " (invalid name format)"]
    end.

(** [" ON DELETE ..."] and [" ON UPDATE ..."] of a foreign key *)
Definition rule_clause (keyword : string) (rule : value) : option string :=
  if py_eq rule (VStr "NO_ACTION") then Some ""
  else
    r ← as_str rule;
    Some (" ON " +:+ keyword +:+ " " +:+ replace_char "_" " " r).

(** [_create_foreign_key_from_table_metadata] *)
Definition _create_foreign_key_from_table_metadata (table_name fk : value)
  : option (list string) :=
  f ← as_dict fk;
  let fk_name := dget f "name" (VStr "") in
  let columns := dget f "columns" (VList []) in
  let ref_table := dget f "referenced_table" (VStr "") in
  let ref_columns := dget f "referenced_columns" (VList []) in
  let delete_rule := dget f "delete_rule" (VStr "NO_ACTION") in
  let update_rule := dget f "update_rule" (VStr "NO_ACTION") in
  if negb (truthy columns) || negb (truthy ref_columns) then
    Some ["-- TODO: CREATE FOREIGN KEY " +:+ str fk_name +:+ " on " +:+ str table_name
            +:+ " (missing column information)"]
  else
    col_list ← bracket_list columns;
    ref_col_list ← bracket_list ref_columns;
    delete_clause ← rule_clause "DELETE" delete_rule;
    update_clause ← rule_clause "UPDATE" update_rule;
    Some [ "ALTER TABLE " +:+ str table_name +:+ " ADD CONSTRAINT [" +:+ str fk_name +:+ "] ";
           "    FOREIGN KEY (" +:+ col_list +:+ ")";
           "    REFERENCES " +:+ str ref_table +:+ " (" +:+ ref_col_list +:+ ")"
             +:+ delete_clause +:+ update_clause +:+ ";";
           "GO";
           "" ].

(** [" INCLUDE (..)"] of an index *)
Definition include_clause (included_columns : value) : option string :=
  if truthy included_columns then
    include_cols ← bracket_list included_columns;
    Some (" INCLUDE (" +:+ include_cols +:+ ")")
  else Some "".

(** [_create_index_statement] (legacy, for a separate index list) *)
Definition _create_index_statement (idx_item : value) : option (list string) :=
  name ← get idx_item "name" (VStr "");
  details ← get idx_item "details" (VDict []);
  source_idx ← get details "source" (VDict []) ≫= as_dict;
  let columns := dget source_idx "columns" (VList []) in
  let included_columns := dget source_idx "included_columns" (VList []) in
  let is_unique := dget source_idx "is_unique" (VBool false) in
  let type_desc := dget source_idx "type_desc" (VStr "NONCLUSTERED") in
  if negb (truthy columns) then
    Some ["-- TODO: CREATE INDEX " +:+ str name +:+ " (no column information)"]
  else
    qualified ← as_str name;
    match rsplit1 qualified "." with
    | [table_name; idx_name] =>
        col_list ← bracket_list columns;
        include_str ← include_clause included_columns;
        Some [ "CREATE " +:+ (if truthy is_unique then "UNIQUE " else "") +:+ str type_desc
                 +:+ " INDEX [" +:+ idx_name +:+ "] ON " +:+ table_name
                 +:+ " (" +:+ col_list +:+ ")" +:+ include_str +:+ ";";
               "" ]
    | _ => Some ["-- TODO: CREATE INDEX " +:+ qualified +:+ " (invalid name format)"]
    end.

(** [_create_index_from_table_metadata] *)
Definition _create_index_from_table_metadata (table_name idx : value)
  : option (list string) :=
  i ← as_dict idx;
  let idx_name := dget i "name" (VStr "") in
  let columns := dget i "columns" (VList []) in
  let included_columns := dget i "included_columns" (VList []) in
  let is_unique := dget i "is_unique" (VBool false) in
  let is_primary_key := dget i "is_primary_key" (VBool false) in
  let type_desc := dget i "type_desc" (VStr "NONCLUSTERED") in
  if truthy is_primary_key then Some []
  else if negb (truthy columns) then
    Some ["-- TODO: CREATE INDEX " +:+ str idx_name +:+ " on " +:+ str table_name
            +:+ " (no column information)"]
  else
    col_list ← bracket_list columns;
    include_str ← include_clause included_columns;
    Some [ "CREATE " +:+ (if truthy is_unique then "UNIQUE " else "") +:+ str type_desc
             +:+ " INDEX [" +:+ str idx_name +:+ "] ON " +:+ str table_name
             +:+ " (" +:+ col_list +:+ ")" +:+ include_str +:+ ";";
           "" ].

(** [_create_programmability_statement] *)
Definition _create_programmability_statement (obj_type : string) (name details : value)
  : option (list string) :=
  source ← get details "source" (VDict []);
  definition ← get source "definition" (VStr "");
  if negb (truthy definition) then
    Some ["-- TODO: CREATE " +:+ upper (drop_last obj_type) +:+ " " +:+ str name
            +:+ " (no definition available)"]
  else
    text ← as_str definition;
    Some [ "PRINT 'Creating/modifying " +:+ drop_last obj_type +:+ " " +:+ str name +:+ "...';";
           text;
           "GO";
           "" ].

(** [_drop_statement] *)
Definition _drop_statement (obj_type : string) (name : value) : list string :=
  let guarded (code kind : string) :=
    [ "IF OBJECT_ID('" +:+ str name +:+ "', '" +:+ code +:+ "') IS NOT NULL DROP "
        +:+ kind +:+ " " +:+ str name +:+ ";"; "GO"; "" ] in
  if String.eqb obj_type "views" then guarded "V" "VIEW"
  else if String.eqb obj_type "procedures" then guarded "P" "PROCEDURE"
  else if String.eqb obj_type "functions" then guarded "FN" "FUNCTION"
  else if String.eqb obj_type "triggers" then guarded "TR" "TRIGGER"
  else if String.eqb obj_type "synonyms" then guarded "SN" "SYNONYM"
  else if String.eqb obj_type "tables" then guarded "U" "TABLE"
  else ["-- TODO: drop " +:+ drop_last obj_type +:+ " " +:+ str name; ""].

(** *** Phases *)

Definition banner (title : string) : list string :=
  [ "-- ==============================================================================";
    title;
    "-- ==============================================================================";
    "" ].

(** A block of a phase: nothing for no items, else a comment line, the lines
    of the items, and an empty line. *)
Definition block (head : string) (body : list string) : list string :=
  [head] ++ body ++ [""].

(** The foreign keys of one table that the drop phase drops: those of the
    target that the source does not name. *)
Definition table_fks_to_drop (table_item : value) : option (list (value * value)) :=
  missing ← has_status MISSING_IN_SOURCE table_item;
  different ← has_status DIFFERENT table_item;
  if missing : bool then Some []
  else if different : bool then
    table_name ← get table_item "name" (VStr "");
    details ← get table_item "details" (VDict []);
    source ← get details "source" (VDict []);
    target ← get details "target" (VDict []);
    let fks_by_name (table : value) :=
      fks ← get table "foreign_keys" (VList []) ≫= iter;
      kvs ← mapM (fun fk => name ← get fk "name" VNone; Some (name, fk)) fks;
      kv_dict kvs in
    source_fks ← fks_by_name source;
    target_fks ← fks_by_name target;
    Some ((fun kv => (table_name, fst kv))
            <$> filter (fun kv => kv_lookup (fst kv) source_fks = None) target_fks)
  else Some [].

(** [_generate_drop_phase] *)
Definition _generate_drop_phase (self : t) : option (list string) :=
  let tables := results_get (results self) "tables" in
  fks_to_drop ← flat_mapM table_fks_to_drop tables;
  let fk_lines :=
    match fks_to_drop with
    | [] => []
    | _ =>
        block ("-- Dropping " +:+ pretty (length fks_to_drop) +:+ " foreign keys")
              ((fun fk_info => "ALTER TABLE " +:+ str (fst fk_info) +:+ " DROP CONSTRAINT ["
                               +:+ str (snd fk_info) +:+ "];") <$> fks_to_drop)
    end in
  drops ←
    flat_mapM (fun obj_type =>
                 items ← filterM (has_status MISSING_IN_SOURCE)
                                 (results_get (results self) obj_type);
                 match items with
                 | [] => Some []
                 | _ =>
                     body ← flat_mapM (fun item => name ← get item "name" (VStr "");
                                                   Some (_drop_statement obj_type name))
                                      items;
                     Some (block ("-- Dropping " +:+ pretty (length items) +:+ " " +:+ obj_type)
                                 body)
                 end)
              ["triggers"; "views"; "procedures"; "functions"; "synonyms"];
  Some (banner "-- PHASE 1: DROP EXTRA OBJECTS (MISSING_IN_SOURCE)" ++ fk_lines ++ drops).

(** [_generate_table_phase] *)
Definition _generate_table_phase (self : t) : option (list string) :=
  let tables := results_get (results self) "tables" in
  new_tables ← filterM (has_status MISSING_IN_TARGET) tables;
  new_lines ←
    match new_tables with
    | [] => Some []
    | _ =>
        body ← flat_mapM (fun table => name ← get table "name" (VStr "");
                                       _create_table_statement self name)
                         new_tables;
        Some (block ("-- Creating " +:+ pretty (length new_tables) +:+ " new tables") body)
    end;
  modified_tables ← filterM (has_status DIFFERENT) tables;
  modified_lines ←
    match modified_tables with
    | [] => Some []
    | _ =>
        body ← flat_mapM (fun table => name ← get table "name" (VStr "");
                                       details ← get table "details" (VDict []);
                                       _alter_table_columns name details)
                         modified_tables;
        Some (block ("-- Modifying " +:+ pretty (length modified_tables) +:+ " existing tables")
                    body)
    end;
  Some (banner "-- PHASE 2: TABLES AND COLUMNS" ++ new_lines ++ modified_lines).

(** The primary key, indexes and foreign keys that the constraint phase
    collects from one table item: [(table_name, pk or None, indexes, fks)]. *)
Definition table_constraints (table_item : value)
  : option (option (value * value * list value * list value)) :=
  new ← has_status MISSING_IN_TARGET table_item;
  different ← has_status DIFFERENT table_item;
  if (new : bool) || (different : bool) then
    table_name ← get table_item "name" (VStr "");
    details ← get table_item "details" (VDict []);
    side ← (if new then Some details else get details "source" (VDict []));
    pk ← get side "primary_key" VNone;
    indexes ← get side "indexes" (VList []) ≫= iter;
    fks ← get side "foreign_keys" (VList []) ≫= iter;
    Some (Some (table_name, pk, indexes, fks))
  else Some None.

(** The block of the items of [obj_type] that are MISSING_IN_TARGET. *)
Definition new_items_block (self : t) (obj_type head_pre head_post : string)
    (statement : value -> option (list string)) : option (list string) :=
  new ← filterM (has_status MISSING_IN_TARGET) (results_get (results self) obj_type);
  match new with
  | [] => Some []
  | _ =>
      body ← flat_mapM statement new;
      Some (block (head_pre +:+ pretty (length new) +:+ head_post) body)
  end.

(** [_generate_constraint_phase] *)
Definition _generate_constraint_phase (self : t) : option (list string) :=
  let tables := results_get (results self) "tables" in
  collected ← omap id <$> mapM table_constraints tables;
  let pks_to_create :=
    omap (fun c : value * value * list value * list value =>
            let '(table_name, pk, _, _) := c in
            if truthy pk then Some (table_name, pk) else None) collected in
  let indexes_to_create :=
    collected ≫= (fun c : value * value * list value * list value =>
                    let '(table_name, _, indexes, _) := c in
                    (fun idx => (table_name, idx)) <$> indexes) in
  let fks_to_create :=
    collected ≫= (fun c : value * value * list value * list value =>
                    let '(table_name, _, _, fks) := c in
                    (fun fk => (table_name, fk)) <$> fks) in
  pk_lines ←
    match pks_to_create with
    | [] => Some []
    | _ =>
        body ← flat_mapM (fun p => _create_primary_key_from_table_metadata (fst p) (snd p))
                         pks_to_create;
        Some (block ("-- Adding/modifying " +:+ pretty (length pks_to_create)
                     +:+ " primary keys") body)
    end;
  uq_lines ← new_items_block self "unique_constraints" "-- Adding " " unique constraints"
                             _create_unique_constraint_statement;
  cc_lines ← new_items_block self "check_constraints" "-- Adding " " check constraints"
                             _create_check_constraint_statement;
  df_lines ← new_items_block self "default_constraints" "-- Adding " " default constraints"
                             _create_default_constraint_statement;
  idx_lines ←
    match indexes_to_create with
    | [] => Some []
    | _ =>
        body ← flat_mapM (fun p => _create_index_from_table_metadata (fst p) (snd p))
                         indexes_to_create;
        Some (block ("-- Creating/modifying " +:+ pretty (length indexes_to_create)
                     +:+ " indexes") body)
    end;
  fk_lines ←
    match fks_to_create with
    | [] => Some []
    | _ =>
        body ← flat_mapM (fun p => _create_foreign_key_from_table_metadata (fst p) (snd p))
                         fks_to_create;
        Some (block ("-- Adding " +:+ pretty (length fks_to_create) +:+ " foreign keys") body)
    end;
  Some (banner "-- PHASE 3: CONSTRAINTS AND INDEXES"
        ++ pk_lines ++ uq_lines ++ cc_lines ++ df_lines ++ idx_lines ++ fk_lines).

(** *** Dependency ordering of the programmable objects *)

(** The first loop of [_ordered_programmability_items]: [node_by_name], the
    items to script keyed by lower-cased name, in insertion order. *)
Definition collect_nodes (self : t) : option (list (string * (string * value))) :=
  foldl (fun acc obj_type =>
           foldl (fun acc item =>
                    nodes ← acc;
                    new ← has_status MISSING_IN_TARGET item;
                    different ← has_status DIFFERENT item;
                    if negb ((new : bool) || (different : bool)) then Some nodes
                    else
                      name ← get item "name" VNone;
                      if negb (truthy name) then Some nodes
                      else
                        key ← lower <$> as_str name;
                        Some (dict_set key (obj_type, item) nodes))
                 acc (results_get (results self) obj_type))
        (Some []) ["functions"; "views"; "procedures"; "triggers"].

(** The lower-cased definition text read for one node. *)
Definition node_definition (item : value) : option string :=
  details ← (fun v => or_else v (VDict [])) <$> get item "details" (VDict []);
  source ← (fun v => or_else v (VDict [])) <$> get details "source" (VDict []);
  definition ← get source "definition" VNone;
  lower <$> as_str (or_else definition (VStr "")).

(** [adjacency[a]]: the other names that occur in the definition of [a]. *)
Definition dependencies (names : list string) (def_by_name : list (string * string))
    (a : string) : list string :=
  let def_a := default "" (dict_lookup a def_by_name) in
  if String.eqb def_a "" then []
  else filter (fun b => a ≠ b ∧ str_in b def_a = true) names.

(** [indegree[b]]: how many sets of [adjacency] hold [b]. *)
Definition indegree_of (adjacency : list (string * list string)) (b : string) : Z :=
  Z.of_nat (length (filter (fun kv => b ∈ snd kv) adjacency)).

Section kahn.

(** The order in which Python iterates over a [set] of [str] (it depends on
    the hashes of the process). *)
Variable set_order : list string -> list string.

(** The [for dep in adjacency[node]] loop: decrement, and enqueue at zero. *)
Definition release (deps : list string) (indegree : list (string * Z))
    (queue : list string) : list (string * Z) * list string :=
  foldl (fun st dep =>
           let '(indegree, queue) := st in
           let d := default 0 (dict_lookup dep indegree) - 1 in
           (dict_set dep d indegree, if d =? 0 then queue ++ [dep] else queue))
        (indegree, queue) (set_order deps).

(** The [while queue] loop, at most [fuel] rounds: [Some ordered_keys] when
    the queue empties within them. *)
Fixpoint kahn (fuel : nat) (adjacency : list (string * list string))
    (indegree : list (string * Z)) (queue ordered_keys : list string)
  : option (list string) :=
  match queue with
  | [] => Some ordered_keys
  | node :: queue' =>
      match fuel with
      | O => None
      | S fuel' =>
          let '(indegree', queue'') :=
            release (default [] (dict_lookup node adjacency)) indegree queue' in
          kahn fuel' adjacency indegree' queue'' (ordered_keys ++ [node])
      end
  end.

(** The keys in scripting order: the result of the loop, then the names it
    left out, in their original order. *)
Definition ordered_names (names : list string) (def_by_name : list (string * string))
  : option (list string) :=
  let adjacency := (fun a => (a, dependencies names def_by_name a)) <$> names in
  let indegree := (fun n => (n, indegree_of adjacency n)) <$> names in
  let queue := filter (fun n => default 0 (dict_lookup n indegree) = 0) names in
  ordered_keys ← kahn (S (length names * length names)) adjacency indegree queue [];
  Some (if (length ordered_keys <? length names)%nat
        then ordered_keys ++ filter (fun n => n ∉ ordered_keys) names
        else ordered_keys).

(** [_ordered_programmability_items] *)
Definition _ordered_programmability_items (self : t)
  : option (list (string * list value)) :=
  node_by_name ← collect_nodes self;
  match node_by_name with
  | [] => Some []
  | _ =>
      def_by_name ← mapM (fun kv : string * (string * value) =>
                            d ← node_definition (snd (snd kv)); Some (fst kv, d))
                         node_by_name;
      let names := fst <$> node_by_name in
      ordered_keys ← ordered_names names def_by_name;
      mapM (fun key => node ← dict_lookup key node_by_name;
                       Some (fst node, [snd node]))
           ordered_keys
  end.

(** [_generate_programmability_phase] *)
Definition _generate_programmability_phase (self : t) : option (list string) :=
  ordered ← _ordered_programmability_items self;
  body ←
    flat_mapM (fun group : string * list value =>
                 let '(obj_type, items) := group in
                 match items with
                 | [] => Some []
                 | _ =>
                     stmts ← flat_mapM (fun item =>
                                          name ← get item "name" (VStr "");
                                          details ← get item "details" (VDict []);
                                          _create_programmability_statement obj_type name details)
                                       items;
                     Some (block ("-- Creating/modifying " +:+ pretty (length items)
                                  +:+ " " +:+ obj_type) stmts)
                 end)
              ordered;
  Some (banner "-- PHASE 4: PROGRAMMABILITY OBJECTS" ++ body).

End kahn.

(** The invariant of the loops of Kahn's algorithm, for the graph in which
    [dep a] holds the names that the definition of [a] names.  [ordered] are
    the nodes popped so far and [pending] what the inner loop has still to
    visit of the set of the node popped last. *)
Definition unreleased (names : list string) (dep : string -> list string)
    (ordered : list string) (b : string) : Z :=
  Z.of_nat (length (filter (fun a => (a ∉ ordered) ∧ (b ∈ dep a)) names)).

Definition kahn_invariant (names : list string) (dep : string -> list string)
    (pending : list string) (indegree : list (string * Z))
    (queue ordered : list string) : Prop :=
  NoDup (ordered ++ queue)
  ∧ (forall b, b ∈ ordered ++ queue -> b ∈ names)
  ∧ (forall b, b ∈ names ->
       dict_lookup b indegree
       = Some (unreleased names dep ordered b + (if bool_decide (b ∈ pending) then 1 else 0)))
  ∧ (forall b, b ∈ ordered ++ queue ->
       unreleased names dep ordered b + (if bool_decide (b ∈ pending) then 1 else 0) = 0).

(** [_generate_misc_phase] *)
Definition _generate_misc_phase (self : t) : option (list string) :=
  let synonyms := results_get (results self) "synonyms" in
  new_synonyms ← filterM (has_status MISSING_IN_TARGET) synonyms;
  body ←
    match new_synonyms with
    | [] => Some []
    | _ =>
        stmts ← flat_mapM (fun syn =>
                             name ← get syn "name" (VStr "");
                             details ← get syn "details" (VDict []);
                             source_syn ← get details "source" (VDict []);
                             base_obj ← get source_syn "base_object_name" (VStr "");
                             Some (if truthy base_obj
                                   then [ "CREATE SYNONYM " +:+ str name +:+ " FOR "
                                            +:+ str base_obj +:+ ";"; "GO" ]
                                   else []))
                          new_synonyms;
        Some (block ("-- Creating " +:+ pretty (length new_synonyms) +:+ " synonyms") stmts)
    end;
  Some (banner "-- PHASE 5: MISCELLANEOUS OBJECTS" ++ body).

(** *** Rollback *)

(** [_rollback_table_columns] *)
Definition _rollback_table_columns (table_name details : value) : option (list string) :=
  name ← as_str table_name;
  if negb (length (split name ".") =? 2)%nat then Some []
  else
    source_table ← (fun v => or_else v (VDict [])) <$> get details "source" VNone;
    target_table ← (fun v => or_else v (VDict [])) <$> get details "target" VNone;
    '(added, removed, changed) ← _compare_columns source_table target_table;
    match added, removed, changed with
    | [], [], [] => Some []
    | _, _, _ =>
        drop_lines ←
          mapM (fun col => col_name ← get col "name" (VStr "");
                           Some ("ALTER TABLE " +:+ name +:+ " DROP COLUMN ["
                                 +:+ str col_name +:+ "];"))
               added;
        tgt_cols ← columns_by_name target_table;
        add_lines ←
          flat_mapM (fun col =>
                       col_name ← get col "name" (VStr "");
                       let orig := default VNone (kv_lookup col_name tgt_cols) in
                       if negb (truthy orig) then Some []
                       else
                         type_str ← _format_column_type orig;
                         nullable ← _is_nullable orig;
                         default_val ← get orig "default_value" VNone;
                         Some [ "ALTER TABLE " +:+ name +:+ " ADD [" +:+ str col_name +:+ "] "
                                  +:+ type_str +:+ " "
                                  +:+ (if nullable : bool then "NULL" else "NOT NULL")
                                  +:+ (if truthy default_val
                                       then " DEFAULT " +:+ str default_val else "")
                                  +:+ ";" ])
                    removed;
        alter_lines ←
          mapM (fun st : value * value =>
                  let tgt_col := snd st in
                  col_name ← get tgt_col "name" (VStr "");
                  type_str ← _format_column_type tgt_col;
                  nullable ← _is_nullable tgt_col;
                  Some ("ALTER TABLE " +:+ name +:+ " ALTER COLUMN [" +:+ str col_name
                        +:+ "] " +:+ type_str +:+ " "
                        +:+ (if nullable : bool then "NULL" else "NOT NULL") +:+ ";"))
               changed;
        Some (["PRINT 'Reverting column changes on " +:+ name +:+ "...';"]
              ++ drop_lines ++ add_lines ++ alter_lines ++ [""])
    end.

Definition ROLLBACK_HEADER : string := "-- ROLLBACK SCRIPT (Generated)".

(** [_generate_rollback] *)
Definition _generate_rollback (self : t) : option (list string) :=
  let tables := results_get (results self) "tables" in
  modified_tables ← filterM (has_status DIFFERENT) tables;
  revert_lines ←
    flat_mapM (fun table => name ← get table "name" (VStr "");
                            details ← get table "details" (VDict []);
                            _rollback_table_columns name details)
              modified_tables;
  new_tables ← filterM (has_status MISSING_IN_TARGET) tables;
  drop_lines ←
    flat_mapM (fun table =>
                 name ← get table "name" (VStr "");
                 Some (if truthy name
                       then [ "PRINT 'Dropping newly-created table " +:+ str name
                                +:+ " as part of rollback...';";
                              "IF OBJECT_ID('" +:+ str name +:+ "', 'U') IS NOT NULL DROP TABLE "
                                +:+ str name +:+ ";";
                              "GO";
                              "" ]
                       else []))
              new_tables;
  Some ([ "-- ==============================================================================";
          ROLLBACK_HEADER;
          "-- NOTE: Review carefully before running in production.";
          "-- This script attempts to reverse table and column changes.";
          "-- ==============================================================================";
          "";
          "USE [" +:+ target_db self +:+ "];";
          "GO";
          "";
          "SET NOCOUNT ON;";
          "SET XACT_ABORT ON;";
          "";
          "PRINT 'Starting rollback...';";
          "PRINT '';";
          "";
          "BEGIN TRANSACTION;";
          "" ]
        ++ revert_lines ++ drop_lines
        ++ [ ""; "COMMIT TRANSACTION;"; "PRINT 'Rollback script completed.';"; "GO" ]).

(** *** [generate] *)

Definition BEGIN_TRANSACTION : string := "BEGIN TRANSACTION;".
Definition COMMIT_TRANSACTION : string := "COMMIT TRANSACTION;".
Definition NO_TRANSACTION_NOTE : string :=
  "PRINT 'Deployment script generation completed (no transaction wrapping).';".

(** The lines [generate] starts with. *)
Definition prologue (self : t) : list string :=
  [ "-- ==============================================================================";
    "-- SQL Compare Tool - Deployment Script";
    "-- Target Database: " +:+ target_db self;
    "-- ==============================================================================";
    "";
    "USE [" +:+ target_db self +:+ "];";
    "GO";
    "";
    "SET NOCOUNT ON;";
    "SET XACT_ABORT ON;";
    "SET ANSI_NULLS ON;";
    "SET QUOTED_IDENTIFIER ON;";
    "";
    "PRINT 'Starting deployment...';";
    "PRINT '';";
    "" ].

(** The lines that close the forward script. *)
Definition epilogue (self : t) : list string :=
  if option_on self "wrap_in_transaction"
  then [ ""; COMMIT_TRANSACTION; "PRINT 'Deployment completed successfully.';"; "GO" ]
  else [ ""; NO_TRANSACTION_NOTE; "GO" ].

Section generate.
Variable set_order : list string -> list string.

(** The lines of the phases that the options include, in order. *)
Definition phase_lines (self : t) : option (list string) :=
  let phase (name : string) (body : option (list string)) :=
    if option_on self name then body else Some [] in
  p1 ← phase "include_drop_phase" (_generate_drop_phase self);
  p2 ← phase "include_table_phase" (_generate_table_phase self);
  p3 ← phase "include_constraint_phase" (_generate_constraint_phase self);
  p4 ← phase "include_programmability_phase" (_generate_programmability_phase set_order self);
  p5 ← phase "include_misc_phase" (_generate_misc_phase self);
  Some (p1 ++ p2 ++ p3 ++ p4 ++ p5).

(** [lines], the forward script, as [generate] holds it before it appends
    the rollback section. *)
Definition forward_lines (self : t) : option (list string) :=
  body ← phase_lines self;
  Some (prologue self
        ++ (if option_on self "wrap_in_transaction" then [BEGIN_TRANSACTION; ""] else [])
        ++ body
        ++ epilogue self).

(** [generate] *)
Definition generate (self : t) : option string :=
  lines ← forward_lines self;
  rollback_lines ← (if option_on self "include_rollback_section"
                    then _generate_rollback self else Some []);
  Some (join NL (lines ++ match rollback_lines with
                          | [] => []
                          | _ => [""; ""] ++ rollback_lines
                          end)).

End generate.

End ScriptGenerator.

(** ** Sample inputs *)

(** A function and a view that calls it, both DIFFERENT. *)
Definition function_f : Py.value :=
  Comparator.item "dbo.f" Comparator.DIFFERENT
    (Py.VDict [("source", Py.VDict [("definition",
                               Py.VStr "CREATE FUNCTION dbo.f() RETURNS INT AS BEGIN RETURN 1 END")]);
            ("target", Py.VDict [("definition",
                               Py.VStr "CREATE FUNCTION dbo.f() RETURNS INT AS BEGIN RETURN 0 END")]);
            ("diff", Py.VStr "{}")]).

Definition view_v : Py.value :=
  Comparator.item "dbo.v" Comparator.DIFFERENT
    (Py.VDict [("source", Py.VDict [("definition",
                               Py.VStr "CREATE VIEW dbo.v AS SELECT dbo.f() AS x")]);
            ("target", Py.VDict [("definition",
                               Py.VStr "CREATE VIEW dbo.v AS SELECT 0 AS x")]);
            ("diff", Py.VStr "{}")]).

Definition view_calls_function : ScriptGenerator.t :=
  ScriptGenerator.init [("functions", [function_f]); ("views", [view_v])] (Py.VDict []) "Db" None.

(** An empty comparison, scripted without a transaction around it. *)
Definition empty_unwrapped : ScriptGenerator.t :=
  ScriptGenerator.init [] (Py.VDict []) "Db"
    (Some [("wrap_in_transaction", Py.VBool false)]).

(** * Properties *)

Import Py.

(** ** Python values *)

Lemma value_rect' (P : value -> Prop) :
  P VNone -> (forall b, P (VBool b)) -> (forall z, P (VInt z)) ->
  (forall s, P (VStr s)) ->
  (forall l, Forall P l -> P (VList l)) ->
  (forall d, Forall (fun kv => P (snd kv)) d -> P (VDict d)) ->
  forall v, P v.
Proof.
  intros HN HB HI HS HL HD.
  fix IH 1. intros [| b | z | s | l | d];
    [apply HN | apply HB | apply HI | apply HS | apply HL | apply HD].
  - induction l as [|x l IHl]; constructor; [apply IH | apply IHl].
  - induction d as [|[k x] d IHd]; constructor; [apply IH | apply IHd].
Qed.

Lemma dict_lookup_Some {A} k (v : A) d :
  NoDup (fst <$> d) -> (k, v) ∈ d -> dict_lookup k d = Some v.
Proof.
  induction d as [|[k' v'] d IH]; intros Hnd Hin.
  - by apply elem_of_nil in Hin.
  - simpl in *. apply NoDup_cons in Hnd as [Hk Hnd].
    apply elem_of_cons in Hin as [Heq | Hin].
    + injection Heq as -> ->. by rewrite String.eqb_refl.
    + destruct (String.eqb_spec k k') as [-> | Hne]; [|by apply IH].
      exfalso. apply Hk. apply list_elem_of_fmap. by exists (k', v).
Qed.





Lemma dict_lookup_dict_set {A} k k' (v : A) d :
  dict_lookup k (dict_set k' v d)
  = if String.eqb k k' then Some v else dict_lookup k d.
Proof.
  induction d as [|[k1 v1] d IH]; simpl.
  - by destruct (String.eqb k k').
  - destruct (String.eqb_spec k' k1) as [-> | Hne]; simpl.
    + by destruct (String.eqb k k1).
    + rewrite IH. destruct (String.eqb_spec k k1) as [-> | Hne1]; [|done].
      destruct (String.eqb_spec k1 k'); congruence.
Qed.

Lemma flat_mapM_nil {A B} (f : A -> option (list B)) : flat_mapM f [] = Some [].
Proof. reflexivity. Qed.

Lemma flat_mapM_cons {A B} (f : A -> option (list B)) x xs :
  flat_mapM f (x :: xs)
  = ys ← f x; rest ← flat_mapM f xs; Some (ys ++ rest).
Proof.
  unfold flat_mapM. simpl. destruct (f x) as [ys|]; simpl; [|done].
  by destruct (mapM f xs).
Qed.

Lemma flat_mapM_elem_of {A B} (f : A -> option (list B)) xs r :
  flat_mapM f xs = Some r ->
  forall y, y ∈ r <-> exists x ys, x ∈ xs ∧ f x = Some ys ∧ y ∈ ys.
Proof.
  revert r. induction xs as [|x xs IH]; intros r.
  - intros [= <-] y. split; [by intros ?%elem_of_nil|].
    by intros (? & ? & ?%elem_of_nil & _).
  - rewrite flat_mapM_cons.
    destruct (f x) as [ys|] eqn:Hx; simpl; [|done].
    destruct (flat_mapM f xs) as [rest|]; simpl; [|done].
    intros [= <-] y. rewrite elem_of_app, (IH rest eq_refl). split.
    + intros [Hy | (x' & ys' & Hx' & Hf & Hy)].
      * exists x, ys. split; [apply list_elem_of_here|done].
      * exists x', ys'. split; [by apply list_elem_of_further|done].
    + intros (x' & ys' & [-> | Hx']%elem_of_cons & Hf & Hy).
      * left. congruence.
      * right. eauto.
Qed.

Lemma flat_mapM_Some {A B} (f : A -> option (list B)) (g : A -> list B) xs :
  Forall (fun x => f x = Some (g x)) xs -> flat_mapM f xs = Some (xs ≫= g).
Proof.
  induction 1 as [|x xs Hx _ IH]; [done|].
  rewrite flat_mapM_cons, Hx, IH. reflexivity.
Qed.

(** ** The comparator *)

Section ComparatorProperties.
Import Comparator.
Variable diff_body : value -> value -> string.

Lemma compare_key_name (src_objs tgt_objs : gmap string value) key :
  get (compare_key diff_body src_objs tgt_objs key) "name" VNone = Some (VStr key).
Proof.
  unfold compare_key.
  repeat case_match; reflexivity.
Qed.

Lemma sorted_elem_of (keys : gset string) k : k ∈ sorted keys ↔ k ∈ keys.
Proof.
  unfold sorted. rewrite merge_sort_Permutation. apply elem_of_elements.
Qed.

Lemma sorted_NoDup (keys : gset string) : NoDup (sorted keys).
Proof.
  unfold sorted. rewrite merge_sort_Permutation. apply NoDup_elements.
Qed.

Lemma sorted_StronglySorted (keys : gset string) :
  StronglySorted String.le (sorted keys).
Proof. apply StronglySorted_merge_sort; apply _. Qed.

(** A value does not differ from itself for [DeepDiff]. *)
Lemma deep_same_refl v : wf v = true -> deep_same v v = true.
Proof.
  induction v as [| b | z | s | l IH | d IH] using value_rect'; simpl; intros Hwf.
  - done.
  - by destruct b.
  - apply Z.eqb_refl.
  - apply String.eqb_refl.
  - rewrite forallb_forall in Hwf. rewrite Forall_forall in IH.
    apply andb_true_iff. split; apply forallb_forall; intros x Hx;
      apply existsb_exists; exists x; (split; [done|]);
      apply IH; [by apply list_elem_of_In | by apply Hwf
                | by apply list_elem_of_In | by apply Hwf].
  - apply andb_true_iff in Hwf as [Hnd Hwf]. apply bool_decide_eq_true in Hnd.
    rewrite forallb_forall in Hwf. rewrite Forall_forall in IH.
    apply andb_true_iff. split; apply forallb_forall; intros [k x] Hx; simpl.
    + apply list_elem_of_In in Hx as Hx'.
      rewrite (dict_lookup_Some k x d) by done.
      apply (IH (k, x)); [done|]. by apply (Hwf (k, x)).
    + apply list_elem_of_In in Hx as Hx'.
      rewrite (dict_lookup_Some k x d) by done. apply bool_decide_eq_true. eauto.
Qed.

Lemma compare_lookup source target obj_type :
  obj_type ∈ OBJ_TYPES ->
  dict_lookup obj_type (compare diff_body source target)
  = Some (compare_type diff_body source target obj_type).
Proof.
  intros Hin. unfold compare.
  repeat (apply elem_of_cons in Hin as [-> | Hin]; [reflexivity|]).
  by apply elem_of_nil in Hin.
Qed.

(** C9: whatever the two snapshots hold, the result of [compare] has
    the fifteen fixed object types as its keys, each once and in the order of
    the loop, and each of them is mapped to a list of items. *)
Theorem compare_has_the_fifteen_object_types (source target : snapshot) :
  fst <$> compare diff_body source target = OBJ_TYPES
  ∧ length OBJ_TYPES = 15%nat
  ∧ NoDup OBJ_TYPES
  ∧ Forall (fun obj_type =>
              dict_lookup obj_type (compare diff_body source target)
              = Some (compare_type diff_body source target obj_type)) OBJ_TYPES.
Proof.
  split; [reflexivity|]. split; [reflexivity|]. split.
  - by apply (bool_decide_unpack _).
  - apply Forall_forall. intros ty Hty. by apply compare_lookup.
Qed.

(** C6: for every object type, the names of the items that [compare]
    lists are the keys of the union of the source and target key sets, each
    exactly once, in lexicographic order. *)
Theorem compare_lists_each_key_once_sorted (source target : snapshot) obj_type :
  obj_type ∈ OBJ_TYPES ->
  let src_objs := default ∅ (source !! obj_type) in
  let tgt_objs := default ∅ (target !! obj_type) in
  let items := results_get (compare diff_body source target) obj_type in
  exists keys : list string,
    (fun it => get it "name" VNone) <$> items = (fun k => Some (VStr k)) <$> keys
    ∧ (forall k, k ∈ keys <-> k ∈ dom src_objs ∪ dom tgt_objs)
    ∧ NoDup keys
    ∧ StronglySorted String.le keys.
Proof.
  intros Hty src_objs tgt_objs items.
  exists (sorted (dom src_objs ∪ dom tgt_objs)).
  split; [|split; [|split]].
  - subst items. unfold results_get. rewrite compare_lookup by done. simpl.
    unfold compare_type. rewrite <- list_fmap_compose.
    apply list_fmap_ext. intros i k _. apply compare_key_name.
  - intros k. apply sorted_elem_of.
  - apply sorted_NoDup.
  - apply sorted_StronglySorted.
Qed.

Lemma compare_key_truthy_records (src_objs tgt_objs : gmap string value) key :
  (forall r, src_objs !! key = Some r -> truthy r = true) ->
  (forall r, tgt_objs !! key = Some r -> truthy r = true) ->
  match src_objs !! key, tgt_objs !! key with
  | Some src, None =>
      compare_key diff_body src_objs tgt_objs key = item key MISSING_IN_TARGET src
  | None, Some tgt =>
      compare_key diff_body src_objs tgt_objs key = item key MISSING_IN_SOURCE tgt
  | Some src, Some tgt =>
      compare_key diff_body src_objs tgt_objs key =
      if deep_same src tgt then item key IDENTICAL src
      else item key DIFFERENT
             (VDict [("source", src); ("target", tgt);
                     ("diff", VStr (to_json diff_body src tgt))])
  | None, None =>
      compare_key diff_body src_objs tgt_objs key = item key IDENTICAL VNone
  end.
Proof.
  intros Hs Ht. unfold compare_key, _diff.
  destruct (src_objs !! key) as [src|], (tgt_objs !! key) as [tgt|]; simpl.
  - rewrite (Hs src), (Ht tgt) by done. simpl.
    destruct (deep_same src tgt); reflexivity.
  - by rewrite (Hs src).
  - by rewrite (Ht tgt).
  - reflexivity.
Qed.

(** C2, amended: for a key whose object-detail records are non-empty
    (truthy), the one item that [compare] lists under that name is
    MISSING_IN_TARGET with the source record when only the source has the
    key, MISSING_IN_SOURCE with the target record when only the target has
    it, and when both have it IDENTICAL (details: the source record) if
    [DeepDiff] with [ignore_order] reports nothing, which is the case for
    equal records, and DIFFERENT with details source, target and a non-empty
    diff otherwise. *)
Theorem compare_classifies_nonempty_records (source target : snapshot) obj_type key :
  obj_type ∈ OBJ_TYPES ->
  let src_objs := default ∅ (source !! obj_type) in
  let tgt_objs := default ∅ (target !! obj_type) in
  let items := results_get (compare diff_body source target) obj_type in
  key ∈ dom src_objs ∪ dom tgt_objs ->
  (forall r, src_objs !! key = Some r -> truthy r = true) ->
  (forall r, tgt_objs !! key = Some r -> truthy r = true) ->
  exists it,
    it ∈ items
    ∧ (forall it', it' ∈ items -> get it' "name" VNone = Some (VStr key) -> it' = it)
    ∧ match src_objs !! key, tgt_objs !! key with
      | Some src, None => it = item key MISSING_IN_TARGET src
      | None, Some tgt => it = item key MISSING_IN_SOURCE tgt
      | Some src, Some tgt =>
          (deep_same src tgt = true -> it = item key IDENTICAL src)
          ∧ (deep_same src tgt = false ->
             exists diff, diff ≠ "" ∧
               it = item key DIFFERENT
                      (VDict [("source", src); ("target", tgt); ("diff", VStr diff)]))
          ∧ (src = tgt -> wf src = true -> it = item key IDENTICAL src)
      | None, None => False
      end.
Proof.
  intros Hty src_objs tgt_objs items Hkey Hs Ht.
  exists (compare_key diff_body src_objs tgt_objs key).
  assert (items = compare_key diff_body src_objs tgt_objs
                    <$> sorted (dom src_objs ∪ dom tgt_objs)) as Hitems.
  { subst items. unfold results_get. by rewrite compare_lookup. }
  split; [|split].
  - rewrite Hitems. apply list_elem_of_fmap. exists key.
    split; [done|]. by apply sorted_elem_of.
  - intros it'. rewrite Hitems. intros (k & -> & _)%list_elem_of_fmap.
    rewrite compare_key_name. by intros [= ->].
  - pose proof (compare_key_truthy_records src_objs tgt_objs key Hs Ht) as Hck.
    apply elem_of_union in Hkey. rewrite !elem_of_dom in Hkey.
    destruct (src_objs !! key) as [src|] eqn:Es, (tgt_objs !! key) as [tgt|] eqn:Et.
    + rewrite Hck. split; [|split].
      * by intros ->.
      * intros ->. exists (to_json diff_body src tgt). split; [|done].
        unfold to_json. discriminate.
      * intros <- Hwf. by rewrite deep_same_refl.
    + done.
    + done.
    + destruct Hkey as [[? [=]] | [? [=]]].
Qed.

(** *** [summarize] and comparing a snapshot with itself *)

Lemma dict_set_keys {A} k (v w : A) d :
  dict_lookup k d = Some w -> fst <$> dict_set k v d = fst <$> d.
Proof.
  induction d as [|[k' m] d IH]; cbn [dict_set dict_lookup]; [done|].
  destruct (String.eqb_spec k k') as [-> | Hne]; [done|].
  intros H. rewrite !fmap_cons. f_equal. by apply IH.
Qed.

Lemma total_cons k m summary : total ((k, m) :: summary) = m + total summary.
Proof. reflexivity. Qed.

Lemma total_dict_set k n summary :
  dict_lookup k summary = Some n ->
  total (dict_set k (n + 1) summary) = total summary + 1
  ∧ fst <$> dict_set k (n + 1) summary = fst <$> summary.
Proof.
  intros Hk. split; [|by apply (dict_set_keys k _ n)].
  revert Hk. induction summary as [|[k' m] summary IH]; cbn [dict_set dict_lookup]; [done|].
  destruct (String.eqb_spec k k') as [-> | Hne].
  - intros [= ->]. rewrite !total_cons. generalize (total summary). intros; lia.
  - intros H%IH. rewrite !total_cons, H. generalize (total summary). intros; lia.
Qed.

Lemma dict_lookup_is_Some {A} k (d : list (string * A)) :
  k ∈ fst <$> d -> is_Some (dict_lookup k d).
Proof.
  induction d as [|[k' v] d IH]; cbn [dict_lookup].
  - by intros ?%elem_of_nil.
  - rewrite fmap_cons. destruct (String.eqb_spec k k'); [by eexists|].
    intros [?|?]%elem_of_cons; [done|by apply IH].
Qed.

Lemma summarize_fold items summary :
  fst <$> summary = STATUSES ->
  Forall (fun item => exists status, status ∈ STATUSES
                                     ∧ subscript item "status" = Some (VStr status)) items ->
  exists summary',
    foldl (fun acc item =>
             summary ← acc;
             status ← subscript item "status" ≫= as_str;
             n ← dict_lookup status summary;
             Some (dict_set status (n + 1) summary))
          (Some summary) items = Some summary'
    ∧ fst <$> summary' = STATUSES
    ∧ total summary' = total summary + Z.of_nat (length items).
Proof.
  intros Hkeys Hall. revert summary Hkeys.
  induction Hall as [|item items (status & Hst & Hsub) _ IH]; intros summary Hkeys.
  - exists summary. simpl. split; [done|]. split; [done|lia].
  - simpl. rewrite Hsub. simpl.
    assert (is_Some (dict_lookup status summary)) as [n Hn].
    { apply dict_lookup_is_Some. by rewrite Hkeys. }
    rewrite Hn. simpl.
    destruct (total_dict_set status n summary Hn) as [Htot Hk].
    destruct (IH (dict_set status (n + 1) summary)) as (summary' & Hf & Hk' & Ht').
    { by rewrite Hk. }
    exists summary'. split; [done|]. split; [done|]. rewrite Ht', Htot. lia.
Qed.

Lemma compare_key_status (src_objs tgt_objs : gmap string value) key :
  exists status, status ∈ STATUSES
    ∧ subscript (compare_key diff_body src_objs tgt_objs key) "status" = Some (VStr status).
Proof.
  unfold compare_key, STATUSES.
  repeat case_match; eexists; (split; [|reflexivity]); set_solver.
Qed.

(** [summarize] accepts every result of [compare]: it returns the four
    status counters, in the order of [STATUS], and they add up to the number
    of items of all object types. *)
Theorem summarize_counts_every_item (source target : snapshot) :
  exists summary,
    summarize (compare diff_body source target) = Some summary
    ∧ fst <$> summary = STATUSES
    ∧ total summary
      = Z.of_nat (length (compare diff_body source target ≫= snd)).
Proof.
  destruct (summarize_fold (compare diff_body source target ≫= snd)
              ((fun k => (k, 0)) <$> STATUSES)) as (summary & Hs & Hk & Ht).
  - reflexivity.
  - apply Forall_forall. intros it (kv & Hit & Hkv)%list_elem_of_bind.
    unfold compare in Hkv. apply list_elem_of_fmap in Hkv as (ty & -> & _).
    simpl in Hit. unfold compare_type in Hit.
    apply list_elem_of_fmap in Hit as (key & -> & _).
    apply compare_key_status.
  - exists summary. split; [exact Hs|]. split; [exact Hk|]. rewrite Ht. reflexivity.
Qed.

(** A snapshot compared with itself: every item of every object type is
    IDENTICAL and carries the record, whether or not the record is empty. *)
Theorem compare_with_itself_is_identical (source : snapshot) obj_type :
  (forall key r, default ∅ (source !! obj_type) !! key = Some r -> wf r = true) ->
  compare_type diff_body source source obj_type
  = (fun key => item key IDENTICAL (default VNone (default ∅ (source !! obj_type) !! key)))
      <$> sorted (dom (default ∅ (source !! obj_type))).
Proof.
  intros Hwf. unfold compare_type.
  rewrite union_idemp_L.
  apply list_fmap_ext. intros i key Hkey.
  apply list_elem_of_lookup_2, sorted_elem_of, elem_of_dom in Hkey as [r Hr].
  unfold compare_key, _diff. rewrite Hr. simpl.
  rewrite (deep_same_refl r) by (by apply (Hwf key)).
  by destruct (truthy r).
Qed.

End ComparatorProperties.

Lemma compare_lists_each_key_once_sorted_witness :
  let source : Comparator.snapshot :=
    {[ "tables" := {[ "dbo.B" := VDict [("columns", VList [])];
                      "dbo.A" := VDict [("columns", VList [])] ]} ]} in
  let target : Comparator.snapshot :=
    {[ "tables" := {[ "dbo.C" := VDict [("columns", VList [])] ]} ]} in
  exists keys : list string,
    (fun it => get it "name" VNone)
      <$> Comparator.results_get (Comparator.compare (fun _ _ => "") source target) "tables"
    = (fun k => Some (VStr k)) <$> keys
    ∧ (forall k, k ∈ keys <->
         k ∈ dom (default ∅ (source !! "tables")) ∪ dom (default ∅ (target !! "tables")))
    ∧ NoDup keys
    ∧ StronglySorted String.le keys.
Proof.
  intros source target.
  apply (compare_lists_each_key_once_sorted (fun _ _ => "") source target "tables").
  unfold Comparator.OBJ_TYPES. apply list_elem_of_here.
Defined.

Lemma compare_classifies_nonempty_records_witness :
  let source : Comparator.snapshot :=
    {[ "tables" := {[ "dbo.A" := VDict [("columns", VList [VStr "id"])];
                      "dbo.B" := VDict [("columns", VList [])] ]} ]} in
  let target : Comparator.snapshot :=
    {[ "tables" := {[ "dbo.A" := VDict [("columns", VList [VStr "id"; VStr "v"])] ]} ]} in
  let src_objs := default ∅ (source !! "tables") in
  let tgt_objs := default ∅ (target !! "tables") in
  let items :=
    Comparator.results_get (Comparator.compare (fun _ _ => "") source target) "tables" in
  exists it,
    it ∈ items
    ∧ (forall it', it' ∈ items -> get it' "name" VNone = Some (VStr "dbo.A") -> it' = it)
    ∧ match src_objs !! "dbo.A", tgt_objs !! "dbo.A" with
      | Some src, None => it = Comparator.item "dbo.A" Comparator.MISSING_IN_TARGET src
      | None, Some tgt => it = Comparator.item "dbo.A" Comparator.MISSING_IN_SOURCE tgt
      | Some src, Some tgt =>
          (Comparator.deep_same src tgt = true ->
           it = Comparator.item "dbo.A" Comparator.IDENTICAL src)
          ∧ (Comparator.deep_same src tgt = false ->
             exists diff, diff ≠ "" ∧
               it = Comparator.item "dbo.A" Comparator.DIFFERENT
                      (VDict [("source", src); ("target", tgt); ("diff", VStr diff)]))
          ∧ (src = tgt -> wf src = true ->
             it = Comparator.item "dbo.A" Comparator.IDENTICAL src)
      | None, None => False
      end.
Proof.
  intros source target src_objs tgt_objs items.
  apply (compare_classifies_nonempty_records (fun _ _ => "") source target "tables" "dbo.A").
  - unfold Comparator.OBJ_TYPES. apply list_elem_of_here.
  - vm_compute. set_solver.
  - intros r. vm_compute. by intros [= <-].
  - intros r. vm_compute. by intros [= <-].
Defined.

(** C2 as stated fails in two ways.  An empty record [{}] is falsy: listed
    under a key of the source alone it is not reported MISSING_IN_TARGET but
    compared with [None] and reported DIFFERENT.  And [DeepDiff] is run with
    [ignore_order]: two records that differ in the order of a list are
    reported IDENTICAL. *)
Lemma compare_as_stated_counterexample :
  (let source : Comparator.snapshot := {[ "users" := {[ "u" := VDict [] ]} ]} in
   let target : Comparator.snapshot := ∅ in
   default ∅ (source !! "users") !! "u" = Some (VDict [])
   ∧ default ∅ (target !! "users") !! "u" = None
   ∧ Comparator.results_get (Comparator.compare (fun _ _ => "") source target) "users"
     = [ Comparator.item "u" Comparator.DIFFERENT
           (VDict [("source", VDict []); ("target", VNone); ("diff", VStr "{}")]) ])
  ∧
  (let src := VDict [("columns", VList [VStr "a"; VStr "b"])] in
   let tgt := VDict [("columns", VList [VStr "b"; VStr "a"])] in
   let source : Comparator.snapshot := {[ "tables" := {[ "dbo.T" := src ]} ]} in
   let target : Comparator.snapshot := {[ "tables" := {[ "dbo.T" := tgt ]} ]} in
   src ≠ tgt
   ∧ Comparator.results_get (Comparator.compare (fun _ _ => "") source target) "tables"
     = [ Comparator.item "dbo.T" Comparator.IDENTICAL src ]).
Proof.
  split; [|split]; [by vm_compute | discriminate | by vm_compute].
Qed.

(** ** The diff generator *)

Section DiffGeneratorProperties.
Import DiffGenerator.
Local Open Scope nat_scope.

Lemma mapM_Some_fmap {A B} (f : A -> option B) (g : A -> B) (l : list A) :
  Forall (fun x => f x = Some (g x)) l -> mapM f l = Some (g <$> l).
Proof.
  induction 1 as [|x l Hx _ IH]; simpl; [done|].
  by rewrite Hx, IH.
Qed.

Lemma slice_lookup {A} (l : list A) i j k :
  j ≤ length l -> i + k < j -> slice l i j !! k = l !! (i + k).
Proof.
  intros Hj Hk. unfold slice.
  rewrite lookup_take_lt by lia. by rewrite lookup_drop.
Qed.

Lemma slice_length {A} (l : list A) i j :
  j ≤ length l -> length (slice l i j) = j - i.
Proof. intros Hj. unfold slice. rewrite length_take, length_drop. lia. Qed.

Lemma slice_fmap_range {A} (l : list A) i j (d : A) :
  j ≤ length l ->
  slice l i j = (fun k => default d (l !! k)) <$> range i j.
Proof.
  intros Hj. apply list_eq. intros k.
  unfold range. rewrite list_lookup_fmap.
  destruct (decide (i + k < j)) as [Hk|Hk].
  - rewrite slice_lookup by done.
    rewrite lookup_seq_lt by lia. simpl.
    destruct (lookup_lt_is_Some_2 l (i + k)) as [x Hx]; [lia|].
    by rewrite Hx.
  - rewrite lookup_ge_None_2 by (rewrite slice_length by done; lia).
    by rewrite lookup_seq_ge by lia.
Qed.

Lemma pad_pairs_lookup ls rs k :
  pad_pairs ls rs !! k =
  if decide (k < length ls `max` length rs)
  then Some (default "" (ls !! k), default "" (rs !! k), "chg")
  else None.
Proof.
  revert rs k. induction ls as [|l ls IH]; intros [|r rs] k.
  - simpl. by destruct k.
  - cbn [pad_pairs]. rewrite list_lookup_fmap.
    case_decide as Hk; simpl in Hk.
    + destruct (lookup_lt_is_Some_2 (r :: rs) k) as [x Hx]; [simpl; lia|].
      rewrite Hx. simpl. by destruct k.
    + rewrite lookup_ge_None_2 by (simpl; lia). done.
  - destruct k as [|k]; simpl; [done|]. rewrite IH. simpl.
    repeat case_decide; try lia; done.
  - destruct k as [|k]; simpl; [done|]. rewrite IH.
    repeat case_decide; try lia; done.
Qed.

Lemma pad_pairs_length ls rs :
  length (pad_pairs ls rs) = length ls `max` length rs.
Proof.
  revert rs. induction ls as [|l ls IH]; intros [|r rs]; simpl; try done.
  - by rewrite length_fmap.
  - rewrite IH. simpl. lia.
  - by rewrite IH.
Qed.

Lemma pad_pairs_fmap_range ls rs :
  pad_pairs ls rs =
  (fun k => (default "" (ls !! k), default "" (rs !! k), "chg"))
    <$> range 0 (length ls `max` length rs).
Proof.
  apply list_eq. intros k. rewrite pad_pairs_lookup, list_lookup_fmap.
  unfold range. case_decide.
  - by rewrite lookup_seq_lt by lia.
  - by rewrite lookup_seq_ge by lia.
Qed.

Lemma elem_of_range k i j : k ∈ range i j <-> i ≤ k < j.
Proof. unfold range. rewrite elem_of_seq. lia. Qed.

(** On an opcode that [difflib] can return, the loop body adds the rows
    of the span. *)
Lemma opcode_rows_span a b op :
  opcode_ok a b op = true ->
  opcode_rows (mk a b) op = Some (span_rows a b op).
Proof.
  unfold opcode_ok, opcode_rows, span_rows. cbn [source target].
  intros [[[Ha0 Ha1]%bool_decide_eq_true [Hb0 Hb1]%bool_decide_eq_true]%andb_true_iff
            Heq]%andb_true_iff.
  destruct (String.eqb (tag op) "equal").
  { simpl in Heq. apply bool_decide_eq_true in Heq.
    assert (a1 op - a0 op = b1 op - b0 op) as Hlen.
    { rewrite <- (slice_length a (a0 op) (a1 op)), <- (slice_length b (b0 op) (b1 op))
        by done. by rewrite Heq. }
    rewrite (slice_fmap_range a _ _ "") by done. rewrite <- list_fmap_compose.
    apply mapM_Some_fmap, Forall_forall. intros i Hi%elem_of_range.
    destruct (lookup_lt_is_Some_2 a i) as [x Hx]; [lia|].
    assert (b !! (b0 op + (i - a0 op)) = Some x) as ->.
    { rewrite <- (slice_lookup b (b0 op) (b1 op)) by lia.
      rewrite <- Heq. rewrite slice_lookup by lia.
      rewrite <- Hx. f_equal. lia. }
    simpl. by rewrite Hx. }
  clear Heq.
  destruct (String.eqb (tag op) "insert").
  { rewrite (slice_fmap_range b _ _ "") by done. rewrite <- list_fmap_compose.
    apply mapM_Some_fmap, Forall_forall. intros j Hj%elem_of_range.
    destruct (lookup_lt_is_Some_2 b j) as [x Hx]; [lia|].
    simpl. by rewrite Hx. }
  destruct (String.eqb (tag op) "delete").
  { rewrite (slice_fmap_range a _ _ "") by done. rewrite <- list_fmap_compose.
    apply mapM_Some_fmap, Forall_forall. intros i Hi%elem_of_range.
    destruct (lookup_lt_is_Some_2 a i) as [x Hx]; [lia|].
    simpl. by rewrite Hx. }
  destruct (String.eqb (tag op) "replace"); [|done].
  rewrite pad_pairs_fmap_range, !slice_length by done.
  apply mapM_Some_fmap, Forall_forall. intros k Hk%elem_of_range.
  assert (forall (l : list string) i j, j ≤ length l -> i ≤ j ->
            (if i + k <? j then l !! (i + k) else Some "")
            = Some (default "" (slice l i j !! k))) as Hside.
  { intros l i j Hj Hij. destruct (Nat.ltb_spec (i + k) j) as [Hlt|Hge].
    - rewrite slice_lookup by done.
      destruct (lookup_lt_is_Some_2 l (i + k)) as [x Hx]; [lia|]. by rewrite Hx.
    - rewrite lookup_ge_None_2; [done|]. rewrite slice_length by done. lia. }
  rewrite !Hside by done. done.
Qed.

(** C4: for every pair of input texts, whenever the opcodes are ones
    [difflib] can return for their lines, [side_by_side] returns the rows of
    the spans in order: an insert span gives a row with an empty left, the
    target line and tag del per target line; a delete span a row with the
    source line, an empty right and tag add per source line; a replace span
    the two blocks paired line by line up to the longer length, the shorter
    padded with empty strings, all tagged chg; an equal span the line on both
    sides with tag same. *)
Theorem side_by_side_rows_follow_spans
    (get_opcodes : list string -> list string -> list opcode)
    (source_sql target_sql : string) :
  let a := splitlines source_sql in
  let b := splitlines target_sql in
  forallb (opcode_ok a b) (get_opcodes a b) = true ->
  exists self,
    init (VStr source_sql) (VStr target_sql) = Some self
    ∧ source self = a ∧ target self = b
    ∧ side_by_side get_opcodes self
      = Some (mjoin (span_rows a b <$> get_opcodes a b)).
Proof.
  intros a b Hok. exists (mk a b). split; [|split; [done|split; [done|]]].
  - unfold init, or_else. simpl. subst a b.
    by destruct (String.eqb_spec source_sql ""), (String.eqb_spec target_sql "");
      subst.
  - unfold side_by_side. cbn [source target].
    rewrite (mapM_Some_fmap _ (span_rows a b)); [done|].
    apply Forall_forall. intros op Hop. apply opcode_rows_span.
    rewrite forallb_forall in Hok. apply Hok. by apply list_elem_of_In.
Qed.

End DiffGeneratorProperties.

Lemma side_by_side_rows_follow_spans_witness :
  let get_opcodes := fun _ _ : list string =>
    [DiffGenerator.Op "equal" 0 1 0 1; DiffGenerator.Op "replace" 1 2 1 3;
     DiffGenerator.Op "delete" 2 3 3 3; DiffGenerator.Op "insert" 3 3 3 4] in
  let a := ["a"; "b"; "c"] in
  let b := ["a"; "x"; "y"; "z"] in
  exists self,
    DiffGenerator.init (VStr "a
b
c") (VStr "a
x
y
z") = Some self
    ∧ DiffGenerator.source self = a ∧ DiffGenerator.target self = b
    ∧ DiffGenerator.side_by_side get_opcodes self
      = Some (mjoin (DiffGenerator.span_rows a b <$> get_opcodes a b)).
Proof.
  intros get_opcodes a b.
  apply (side_by_side_rows_follow_spans get_opcodes "a
b
c" "a
x
y
z").
  reflexivity.
Defined.

(** ** Strings *)

Section StringProperties.


Lemma str_of_chars s : str_of (chars s) = s.
Proof. apply String.string_of_list_ascii_of_string. Qed.

Lemma chars_app a b : chars (a +:+ b) = chars a ++ chars b.
Proof. induction a as [|c a IH]; simpl; [done|]. unfold chars in *. by rewrite IH. Qed.

Lemma chars_inj a b : chars a = chars b -> a = b.
Proof. intros H. by rewrite <- (str_of_chars a), <- (str_of_chars b), H. Qed.










Lemma is_prefix_spec p l : is_prefix p l = true <-> exists q, l = p ++ q.
Proof.
  revert l. induction p as [|a p IH]; intros l; simpl.
  - split; [by exists l|done].
  - destruct l as [|b l].
    + split; [done|]. by intros [q [=]].
    + rewrite andb_true_iff, bool_decide_eq_true, IH. split.
      * intros [-> [q ->]]. by exists q.
      * intros [q [= -> ->]]. split; [done|]. by exists q.
Qed.

Lemma occurs_spec p l : occurs p l = true <-> exists a b, l = a ++ p ++ b.
Proof.
  induction l as [|c l IH]; cbn [occurs]; rewrite orb_true_iff, is_prefix_spec.
  - split.
    + intros [[q Hq] | [=]]. by exists [], q.
    + intros (a & b & Hab). left. destruct a; [by exists b|done].
  - rewrite IH. split.
    + intros [[q Hq] | (a & b & ->)]; [by exists [], q|by exists (c :: a), b].
    + intros ([|c' a] & b & Hab); [left; by exists b|].
      right. injection Hab as -> ->. by exists a, b.
Qed.

Lemma str_in_spec needle hay :
  str_in needle hay = true <-> exists a b, chars hay = a ++ chars needle ++ b.
Proof. apply occurs_spec. Qed.

Lemma occurs_app_l p x y : occurs p x = true -> occurs p (x ++ y) = true.
Proof.
  rewrite !occurs_spec. intros (a & b & ->). exists a, (b ++ y).
  by rewrite <- !app_assoc.
Qed.

Lemma occurs_app_r p x y : occurs p y = true -> occurs p (x ++ y) = true.
Proof.
  rewrite !occurs_spec. intros (a & b & ->). exists (x ++ a), b.
  by rewrite <- !app_assoc.
Qed.

(** An occurrence in [x ++ c :: y] of a text without [c] lies in [x] or in
    [y]. *)
Lemma occurs_separator p x c y :
  c ∉ p -> occurs p (x ++ c :: y) = true ->
  occurs p x = true ∨ occurs p y = true.
Proof.
  intros Hc. rewrite !occurs_spec. intros (u & v & Heq).
  apply app_eq_app in Heq as [l [[Hx Heq] | [Hu Heq]]].
  - apply app_eq_app in Heq as [l2 [[Hp Heq] | [Hl Heq]]].
    + destruct l2 as [|c' l2]; simpl in Heq.
      * left. exists u, []. rewrite app_nil_r in Hp. by rewrite app_nil_r, Hp.
      * injection Heq as <- _. exfalso. apply Hc. rewrite Hp.
        apply elem_of_app. right. apply list_elem_of_here.
    + left. exists u, l2. by rewrite Hx, Hl.
  - destruct l as [|c' l]; simpl in Heq.
    + destruct p as [|c' p]; simpl in Heq.
      * left. exists x, []. by rewrite !app_nil_r.
      * injection Heq as -> _. exfalso. apply Hc. apply list_elem_of_here.
    + injection Heq as _ ->. right. by exists l, v.
Qed.

Lemma chars_join_cons sep x y rest :
  chars (join sep (x :: y :: rest))
  = chars x ++ chars sep ++ chars (join sep (y :: rest)).
Proof. cbn [join]. by rewrite !chars_app. Qed.

(** A line of a joined text occurs in it, with everything it contains. *)
Lemma str_in_join m sep l ls :
  l ∈ ls -> str_in m l = true -> str_in m (join sep ls) = true.
Proof.
  unfold str_in. intros Hl Hm. induction ls as [|x ls IH].
  - by apply elem_of_nil in Hl.
  - destruct ls as [|y rest].
    + apply list_elem_of_singleton in Hl as ->. done.
    + rewrite chars_join_cons. apply elem_of_cons in Hl as [-> | Hl].
      * by apply occurs_app_l.
      * apply occurs_app_r, occurs_app_r. by apply IH.
Qed.

Lemma occurs_nil_false p : p ≠ [] -> occurs p [] = false.
Proof. by destruct p. Qed.

(** A text without a newline that occurs in lines joined by newlines
    occurs in one of the lines. *)
Lemma str_in_join_NL m ls :
  m ≠ "" -> ascii_of_nat 10 ∉ chars m ->
  str_in m (join NL ls) = true -> exists l, l ∈ ls ∧ str_in m l = true.
Proof.
  unfold str_in. intros Hne Hnl. induction ls as [|x ls IH].
  - cbn [join]. change (chars "") with (@nil ascii).
    rewrite occurs_nil_false; [done|]. by destruct m.
  - destruct ls as [|y rest].
    + intros H. exists x. split; [apply list_elem_of_here|done].
    + rewrite chars_join_cons. cbn [NL chars String.list_ascii_of_string app].
      intros [H | H]%occurs_separator; [| |done].
      * exists x. split; [apply list_elem_of_here|done].
      * destruct (IH H) as (l & Hl & Hm). exists l.
        split; [by apply list_elem_of_further|done].
Qed.

(** An occurrence of [m] in [x ++ y] lies in [x], in [y], or across. *)
Lemma occurs_app_cases m x y :
  occurs m (x ++ y) = true ->
  occurs m x = true ∨ occurs m y = true
  ∨ (prefix_ends m x = true ∧ suffix_starts m y = true).
Proof.
  rewrite !occurs_spec. intros (u & v & Heq).
  apply app_eq_app in Heq as [l [[Hx Heq] | [Hu Heq]]].
  - apply app_eq_app in Heq as [l2 [[Hm Hy] | [Hl Hv]]].
    + destruct l as [|a l].
      { right. left. exists [], v. simpl in Hm. by rewrite Hm. }
      destruct l2 as [|b l2].
      { left. exists u, []. rewrite app_nil_r in Hm. by rewrite app_nil_r, Hm. }
      right. right.
      assert (take (length (a :: l)) m = a :: l) as Htake.
      { rewrite Hm. by rewrite take_app_length. }
      assert (drop (length (a :: l)) m = b :: l2) as Hdrop.
      { rewrite Hm. by rewrite drop_app_length. }
      assert (length (a :: l) ∈ seq 1 (length m - 1)) as Hi.
      { apply elem_of_seq. rewrite Hm, length_app. simpl. lia. }
      unfold prefix_ends, suffix_starts. split; apply existsb_exists;
        exists (length (a :: l)); (split; [by apply list_elem_of_In|]).
      * rewrite Htake, Hx, rev_app_distr. apply is_prefix_spec. by eexists.
      * rewrite Hdrop, Hy. apply is_prefix_spec. by eexists.
    + left. exists u, l2. by rewrite Hx, Hl.
  - right. left. by exists l, v.
Qed.

Lemma not_occurs_app m x y :
  occurs m x = false -> occurs m y = false ->
  prefix_ends m x && suffix_starts m y = false ->
  occurs m (x ++ y) = false.
Proof.
  intros Hx Hy Hxy. apply not_true_iff_false.
  intros [H | [H | [H1 H2]]]%occurs_app_cases; [congruence..|].
  by rewrite H1, H2 in Hxy.
Qed.

End StringProperties.

(** ** The script generator: columns *)

Section ColumnProperties.
Import ScriptGenerator.












End ColumnProperties.


(** ** The script generator: dependency order and synonyms *)

Section OrderProperties.
Import ScriptGenerator Comparator.

(** C1 fails on the code: the view [dbo.v], whose definition names the
    function [dbo.f], is ordered before the function, whatever the order in
    which Python iterates over a set: [indegree] counts the objects that
    depend on a node, so the loop starts from the objects nothing depends
    on. *)
Theorem ordered_items_put_dependent_first (set_order : list string -> list string) :
  (forall names, set_order names ≡ₚ names) ->
  _ordered_programmability_items set_order view_calls_function
  = Some [("views", [view_v]); ("functions", [function_f])].
Proof.
  intros Hperm.
  assert (set_order [] = []) as H0.
  { apply Permutation_nil_r. apply Hperm. }
  assert (forall n, set_order [n] = [n]) as H1.
  { intros n. apply Permutation_singleton_r. apply Hperm. }
  unfold _ordered_programmability_items.
  assert (collect_nodes view_calls_function
          = Some [("dbo.f", ("functions", function_f)); ("dbo.v", ("views", view_v))])
    as -> by (by vm_compute).
  cbn [mbind option_bind].
  assert (mapM (fun kv : string * (string * value) =>
                  d ← node_definition (snd (snd kv)); Some (fst kv, d))
               [("dbo.f", ("functions", function_f)); ("dbo.v", ("views", view_v))]
          = Some [("dbo.f", "create function dbo.f() returns int as begin return 1 end");
                  ("dbo.v", "create view dbo.v as select dbo.f() as x")])
    as -> by (by vm_compute).
  cbn [mbind option_bind fmap list_fmap fst].
  assert (ordered_names set_order ["dbo.f"; "dbo.v"]
            [("dbo.f", "create function dbo.f() returns int as begin return 1 end");
             ("dbo.v", "create view dbo.v as select dbo.f() as x")]
          = Some ["dbo.v"; "dbo.f"]) as ->; [|by vm_compute].
  unfold ordered_names.
  set (adjacency := (fun a => (a, dependencies _ _ a)) <$> _).
  assert (adjacency = [("dbo.f", []); ("dbo.v", ["dbo.f"])]) as -> by (by vm_compute).
  set (indegree := (fun n => (n, indegree_of _ n)) <$> _).
  assert (indegree = [("dbo.f", 1); ("dbo.v", 0)]) as -> by (by vm_compute).
  set (queue := filter _ _).
  assert (queue = ["dbo.v"]) as -> by (by vm_compute).
  change (S (length ["dbo.f"; "dbo.v"] * length ["dbo.f"; "dbo.v"])) with 5%nat.
  assert (release set_order ["dbo.f"] [("dbo.f", 1); ("dbo.v", 0)] []
          = ([("dbo.f", 0); ("dbo.v", 0)], ["dbo.f"])) as Hr1.
  { unfold release. rewrite H1. by vm_compute. }
  assert (release set_order [] [("dbo.f", 0); ("dbo.v", 0)] []
          = ([("dbo.f", 0); ("dbo.v", 0)], [])) as Hr0.
  { unfold release. rewrite H0. by vm_compute. }
  cbn [kahn].
  change (default [] (dict_lookup "dbo.v" [("dbo.f", []); ("dbo.v", ["dbo.f"])]))
    with ["dbo.f"].
  rewrite Hr1.
  change (default [] (dict_lookup "dbo.f" [("dbo.f", []); ("dbo.v", ["dbo.f"])]))
    with (@nil string).
  rewrite Hr0.
  by vm_compute.
Qed.

Lemma filterM_all {A} (p : A -> option bool) xs :
  Forall (fun x => p x = Some true) xs -> filterM p xs = Some xs.
Proof.
  induction 1 as [|x xs Hx _ IH]; simpl; [done|]. by rewrite Hx, IH.
Qed.

Lemma bind_nil {A B} (xs : list A) : xs ≫= (fun _ => @nil B) = [].
Proof. by induction xs. Qed.

(** C8 fails on the code: when every synonym item is MISSING_IN_TARGET
    and carries, as [compare] builds it, the source record itself as its
    details (a record with no key [source]), the misc phase writes its
    banner and the comment with the number of synonyms, and no CREATE
    SYNONYM statement at all: it looks the base object up under
    [details["source"]]. *)
Theorem misc_phase_creates_no_synonym (self : ScriptGenerator.t) (synonyms : list value) :
  results_get (ScriptGenerator.results self) "synonyms" = synonyms ->
  synonyms ≠ [] ->
  Forall (fun syn => exists name record,
            syn = item name MISSING_IN_TARGET (VDict record)
            ∧ dict_lookup "source" record = None) synonyms ->
  _generate_misc_phase self
  = Some (banner "-- PHASE 5: MISCELLANEOUS OBJECTS"
          ++ ["-- Creating " +:+ pretty (length synonyms) +:+ " synonyms"; ""]).
Proof.
  intros Hsyn Hne Hall. unfold _generate_misc_phase. rewrite Hsyn.
  rewrite filterM_all.
  2:{ eapply Forall_impl; [exact Hall|]. by intros syn (name & record & -> & _). }
  cbn [mbind option_bind].
  destruct synonyms as [|syn synonyms]; [done|].
  rewrite (flat_mapM_Some _ (fun _ => [])).
  2:{ eapply Forall_impl; [exact Hall|]. intros syn' (name & record & -> & Hsrc).
      cbn. unfold dget. rewrite Hsrc. reflexivity. }
  rewrite bind_nil. reflexivity.
Qed.

End OrderProperties.

Lemma ordered_items_put_dependent_first_witness :
  (forall names : list string, id names ≡ₚ names)
  ∧ ScriptGenerator._ordered_programmability_items id view_calls_function
    = Some [("views", [view_v]); ("functions", [function_f])].
Proof.
  split; [done|].
  apply (ordered_items_put_dependent_first id). done.
Defined.

Lemma misc_phase_creates_no_synonym_witness :
  let synonym := Comparator.item "dbo.s" Comparator.MISSING_IN_TARGET
                   (VDict [("base_object_name", VStr "dbo.t")]) in
  ScriptGenerator._generate_misc_phase
    (ScriptGenerator.init [("synonyms", [synonym])] (VDict []) "Db" None)
  = Some (ScriptGenerator.banner "-- PHASE 5: MISCELLANEOUS OBJECTS"
          ++ ["-- Creating " +:+ pretty (length [synonym]) +:+ " synonyms"; ""]).
Proof.
  intros synonym.
  apply (misc_phase_creates_no_synonym
           (ScriptGenerator.init [("synonyms", [synonym])] (VDict []) "Db" None)
           [synonym]).
  - reflexivity.
  - discriminate.
  - constructor; [|constructor].
    exists "dbo.s", [("base_object_name", VStr "dbo.t")]. split; reflexivity.
Defined.

Lemma compare_with_itself_is_identical_witness :
  let source : Comparator.snapshot :=
    {[ "tables" := {[ "dbo.A" := VDict [("columns", VList [VStr "id"])];
                      "dbo.B" := VDict [] ]} ]} in
  Comparator.compare_type (fun _ _ => "") source source "tables"
  = (fun key => Comparator.item key Comparator.IDENTICAL
                  (default VNone (default ∅ (source !! "tables") !! key)))
      <$> Comparator.sorted (dom (default ∅ (source !! "tables"))).
Proof.
  intros source.
  apply (compare_with_itself_is_identical (fun _ _ => "") source "tables").
  intros key r. unfold source.
  rewrite lookup_singleton_eq. simpl.
  intros [[_ <-] | [_ [_ <-]%lookup_singleton_Some]]%lookup_insert_Some; reflexivity.
Defined.

(** ** The script generator: [generate] *)

Section GenerateProperties.
Import ScriptGenerator.
Variable set_order : list string -> list string.

Lemma append_assoc (a b c : string) : (a +:+ b) +:+ c = a +:+ b +:+ c.
Proof. apply chars_inj. rewrite !chars_app. by rewrite app_assoc. Qed.

Lemma join_app sep (xs ys : list string) :
  xs ≠ [] -> ys ≠ [] ->
  join sep (xs ++ ys) = join sep xs +:+ sep +:+ join sep ys.
Proof.
  intros Hx Hy. induction xs as [|x xs IH]; [done|].
  destruct xs as [|x' xs].
  - destruct ys; [done|]. reflexivity.
  - change (join sep ((x :: x' :: xs) ++ ys))
      with (x +:+ sep +:+ join sep ((x' :: xs) ++ ys)).
    rewrite IH by done. cbn [join]. by rewrite !append_assoc.
Qed.

(** With [wrap_in_transaction] on, the forward script is the prologue, the
    begin marker, the lines of the phases, and the commit marker with its
    closing lines; its text contains both markers. *)
Theorem forward_script_wrapped_in_transaction (self : ScriptGenerator.t) body :
  option_on self "wrap_in_transaction" = true ->
  phase_lines set_order self = Some body ->
  exists lines,
    forward_lines set_order self = Some lines
    ∧ lines = prologue self ++ [BEGIN_TRANSACTION; ""] ++ body
              ++ [""; COMMIT_TRANSACTION; "PRINT 'Deployment completed successfully.';"; "GO"]
    ∧ str_in BEGIN_TRANSACTION (join NL lines) = true
    ∧ str_in COMMIT_TRANSACTION (join NL lines) = true.
Proof.
  intros Hwrap Hbody. eexists. split; [|split; [reflexivity|]].
  - unfold forward_lines, epilogue. rewrite Hbody, Hwrap. reflexivity.
  - split.
    + apply (str_in_join _ _ BEGIN_TRANSACTION); [|by vm_compute].
      apply elem_of_app. right. apply list_elem_of_here.
    + apply (str_in_join _ _ COMMIT_TRANSACTION); [|by vm_compute].
      rewrite !elem_of_app. right. right. right.
      apply list_elem_of_further, list_elem_of_here.
Qed.

Lemma marker_not_in_db_lines marker db :
  marker ∈ [BEGIN_TRANSACTION; COMMIT_TRANSACTION] ->
  str_in marker db = false ->
  str_in marker ("-- Target Database: " +:+ db) = false
  ∧ str_in marker ("USE [" +:+ db +:+ "];") = false.
Proof.
  intros Hm Hdb. unfold str_in in *. rewrite !chars_app.
  assert (occurs (chars marker) (chars "-- Target Database: ") = false
          ∧ prefix_ends (chars marker) (chars "-- Target Database: ") = false
          ∧ occurs (chars marker) (chars "USE [") = false
          ∧ prefix_ends (chars marker) (chars "USE [") = false
          ∧ occurs (chars marker) (chars "];") = false
          ∧ suffix_starts (chars marker) (chars "];") = false)
    as (H1 & H2 & H3 & H4 & H5 & H6).
  { apply elem_of_cons in Hm as [-> | Hm]; [by vm_compute|].
    apply list_elem_of_singleton in Hm as ->. by vm_compute. }
  split.
  - apply not_occurs_app; [done..|]. by rewrite H2.
  - apply not_occurs_app; [done| |by rewrite H4].
    apply not_occurs_app; [done..|]. by rewrite H6, andb_false_r.
Qed.

(** With [wrap_in_transaction] off, the forward script closes with the
    note that no transaction wraps it, and [generate] puts no transaction
    marker of its own in it: a marker that occurs neither in the name of the
    target database nor in a line of the phases does not occur in the
    forward script. *)
Theorem forward_script_without_transaction (self : ScriptGenerator.t) body :
  option_on self "wrap_in_transaction" = false ->
  phase_lines set_order self = Some body ->
  exists lines,
    forward_lines set_order self = Some lines
    ∧ lines = prologue self ++ body ++ [""; NO_TRANSACTION_NOTE; "GO"]
    ∧ str_in "no transaction wrapping" (join NL lines) = true
    ∧ (forall marker,
         marker ∈ [BEGIN_TRANSACTION; COMMIT_TRANSACTION] ->
         str_in marker (target_db self) = false ->
         Forall (fun l => str_in marker l = false) body ->
         str_in marker (join NL lines) = false).
Proof.
  intros Hwrap Hbody. eexists. split; [|split; [reflexivity|]].
  - unfold forward_lines, epilogue. rewrite Hbody, Hwrap. reflexivity.
  - split.
    + apply (str_in_join _ _ NO_TRANSACTION_NOTE); [|by vm_compute].
      rewrite !elem_of_app. right. right.
      apply list_elem_of_further, list_elem_of_here.
    + intros marker Hm Hdb Hall. apply not_true_iff_false. intros Hin.
      apply str_in_join_NL in Hin as (l & Hl & Hml).
      * destruct (marker_not_in_db_lines marker (target_db self) Hm Hdb) as [Hd1 Hd2].
        rewrite !elem_of_app in Hl. destruct Hl as [Hl | [Hl | Hl]].
        -- unfold prologue in Hl.
           repeat (apply elem_of_cons in Hl as [-> | Hl];
                   [first [ congruence
                          | revert Hml; clear -Hm;
                            apply elem_of_cons in Hm as [-> | Hm];
                            [by vm_compute|];
                            apply list_elem_of_singleton in Hm as ->; by vm_compute ]|]).
           by apply elem_of_nil in Hl.
        -- rewrite Forall_forall in Hall. rewrite (Hall l Hl) in Hml. done.
        -- revert Hml. clear -Hm Hl.
           repeat (apply elem_of_cons in Hl as [-> | Hl];
                   [apply elem_of_cons in Hm as [-> | Hm];
                    [by vm_compute|];
                    apply list_elem_of_singleton in Hm as ->; by vm_compute|]).
           by apply elem_of_nil in Hl.
      * apply elem_of_cons in Hm as [-> | Hm]; [done|].
        by apply list_elem_of_singleton in Hm as ->.
      * apply elem_of_cons in Hm as [-> | Hm]; [by apply (bool_decide_unpack _)|].
        apply list_elem_of_singleton in Hm as ->. by apply (bool_decide_unpack _).
Qed.

Lemma generate_rollback_shape (self : ScriptGenerator.t) rb :
  _generate_rollback self = Some rb ->
  exists head mid,
    rb = head :: ROLLBACK_HEADER :: mid
    ∧ BEGIN_TRANSACTION ∈ mid ∧ COMMIT_TRANSACTION ∈ mid.
Proof.
  unfold _generate_rollback. intros H.
  destruct (filterM (has_status Comparator.DIFFERENT) _) as [modified|];
    cbn [mbind option_bind] in H; [|done].
  destruct (flat_mapM _ modified) as [revert_lines|]; cbn [mbind option_bind] in H; [|done].
  destruct (filterM (has_status Comparator.MISSING_IN_TARGET) _) as [new|];
    cbn [mbind option_bind] in H; [|done].
  destruct (flat_mapM _ new) as [drop_lines|]; cbn [mbind option_bind] in H; [|done].
  injection H as <-. eexists _, _. split; [reflexivity|]. split.
  - do 13 apply list_elem_of_further. apply list_elem_of_here.
  - do 15 apply list_elem_of_further. rewrite !elem_of_app. right. right.
    apply list_elem_of_further, list_elem_of_here.
Qed.

(** The generated script is the forward script alone when the rollback
    section is off; when it is on, it is the forward script, two empty
    lines, and the rollback script, which carries its header and is always
    wrapped in a transaction of its own. *)
Theorem generate_is_forward_then_rollback (self : ScriptGenerator.t) lines :
  forward_lines set_order self = Some lines ->
  (option_on self "include_rollback_section" = false ->
   generate set_order self = Some (join NL lines))
  ∧ (option_on self "include_rollback_section" = true ->
     forall rb, _generate_rollback self = Some rb ->
       generate set_order self
       = Some (join NL lines +:+ NL +:+ NL +:+ NL +:+ join NL rb)
       ∧ str_in ROLLBACK_HEADER (join NL rb) = true
       ∧ str_in BEGIN_TRANSACTION (join NL rb) = true
       ∧ str_in COMMIT_TRANSACTION (join NL rb) = true).
Proof.
  intros Hlines. unfold generate. rewrite Hlines. simpl. split.
  - intros ->. simpl. by rewrite app_nil_r.
  - intros -> rb Hrb. rewrite Hrb. simpl.
    destruct (generate_rollback_shape self rb Hrb) as (head & mid & -> & Hb & Hc).
    assert (lines ≠ []) as Hne.
    { unfold forward_lines in Hlines.
      destruct (phase_lines set_order self); simpl in Hlines; [|done].
      injection Hlines as <-. done. }
    split; [|split; [|split]].
    + f_equal. rewrite join_app by done. reflexivity.
    + apply (str_in_join _ _ ROLLBACK_HEADER); [|by vm_compute].
      apply list_elem_of_further, list_elem_of_here.
    + apply (str_in_join _ _ BEGIN_TRANSACTION); [|by vm_compute].
      by do 2 apply list_elem_of_further.
    + apply (str_in_join _ _ COMMIT_TRANSACTION); [|by vm_compute].
      by do 2 apply list_elem_of_further.
Qed.

End GenerateProperties.

Lemma forward_script_wrapped_in_transaction_witness :
  let body := default [] (ScriptGenerator.phase_lines id view_calls_function) in
  exists lines,
    ScriptGenerator.forward_lines id view_calls_function = Some lines
    ∧ lines = ScriptGenerator.prologue view_calls_function
              ++ [ScriptGenerator.BEGIN_TRANSACTION; ""] ++ body
              ++ [""; ScriptGenerator.COMMIT_TRANSACTION;
                  "PRINT 'Deployment completed successfully.';"; "GO"]
    ∧ str_in ScriptGenerator.BEGIN_TRANSACTION (join NL lines) = true
    ∧ str_in ScriptGenerator.COMMIT_TRANSACTION (join NL lines) = true.
Proof.
  intros body.
  apply (forward_script_wrapped_in_transaction id view_calls_function body).
  - reflexivity.
  - by vm_compute.
Defined.

Lemma forward_script_without_transaction_witness :
  let body := default [] (ScriptGenerator.phase_lines id empty_unwrapped) in
  exists lines,
    ScriptGenerator.forward_lines id empty_unwrapped = Some lines
    ∧ lines = ScriptGenerator.prologue empty_unwrapped ++ body
              ++ [""; ScriptGenerator.NO_TRANSACTION_NOTE; "GO"]
    ∧ str_in "no transaction wrapping" (join NL lines) = true
    ∧ (forall marker,
         marker ∈ [ScriptGenerator.BEGIN_TRANSACTION; ScriptGenerator.COMMIT_TRANSACTION] ->
         str_in marker (ScriptGenerator.target_db empty_unwrapped) = false ->
         Forall (fun l => str_in marker l = false) body ->
         str_in marker (join NL lines) = false).
Proof.
  intros body.
  apply (forward_script_without_transaction id empty_unwrapped body).
  - reflexivity.
  - by vm_compute.
Defined.

Lemma generate_is_forward_then_rollback_witness :
  let lines := default [] (ScriptGenerator.forward_lines id empty_unwrapped) in
  (ScriptGenerator.option_on empty_unwrapped "include_rollback_section" = false ->
   ScriptGenerator.generate id empty_unwrapped = Some (join NL lines))
  ∧ (ScriptGenerator.option_on empty_unwrapped "include_rollback_section" = true ->
     forall rb, ScriptGenerator._generate_rollback empty_unwrapped = Some rb ->
       ScriptGenerator.generate id empty_unwrapped
       = Some (join NL lines +:+ NL +:+ NL +:+ NL +:+ join NL rb)
       ∧ str_in ScriptGenerator.ROLLBACK_HEADER (join NL rb) = true
       ∧ str_in ScriptGenerator.BEGIN_TRANSACTION (join NL rb) = true
       ∧ str_in ScriptGenerator.COMMIT_TRANSACTION (join NL rb) = true).
Proof.
  intros lines.
  apply (generate_is_forward_then_rollback id empty_unwrapped lines).
  by vm_compute.
Defined.

(** ** The script generator: options and placeholders *)

Section OptionProperties.
Import ScriptGenerator.

Lemma dict_lookup_app {A} k (d1 d2 : list (string * A)) :
  dict_lookup k (d1 ++ d2)
  = match dict_lookup k d1 with Some v => Some v | None => dict_lookup k d2 end.
Proof.
  induction d1 as [|[k' v] d1 IH]; simpl; [done|].
  by destruct (String.eqb k k').
Qed.

Lemma dict_lookup_update {A} k (d opts : list (string * A)) :
  dict_lookup k (foldl (fun d kv => dict_set (fst kv) (snd kv) d) d opts)
  = match dict_lookup k (reverse opts) with
    | Some v => Some v
    | None => dict_lookup k d
    end.
Proof.
  revert d. induction opts as [|[k' v] opts IH]; intros d; simpl; [done|].
  rewrite IH, reverse_cons, dict_lookup_app, dict_lookup_dict_set. simpl.
  destruct (dict_lookup k (reverse opts)); [done|].
  by destruct (String.eqb k k').
Qed.

(** Every deployment option is on unless the caller turns it off: with no
    options, or for a name the caller does not give, [option_on] is true;
    for a name the caller gives, it is the truth value of the value given
    (the last one, if the name is given twice). *)
Theorem options_default_to_on comparison_result source_metadata target_db name :
  option_on (init comparison_result source_metadata target_db None) name = true
  ∧ forall opts,
      option_on (init comparison_result source_metadata target_db (Some opts)) name
      = match dict_lookup name (reverse opts) with
        | Some v => truthy v
        | None => true
        end.
Proof.
  assert (truthy (dget defaults name (VBool true)) = true) as Hdef.
  { unfold dget, defaults. cbn [dict_lookup].
    repeat (destruct (String.eqb name _); [done|]). done. }
  split; [exact Hdef|].
  intros opts. unfold option_on, init. cbn [deploy_options].
  unfold dget in *. rewrite dict_lookup_update.
  by destruct (dict_lookup name (reverse opts)).
Qed.

End OptionProperties.

Section PlaceholderProperties.
Import ScriptGenerator Comparator.

Lemma filterM_none {A} (p : A -> option bool) xs :
  Forall (fun x => p x = Some false) xs -> filterM p xs = Some [].
Proof.
  induction 1 as [|x xs Hx _ IH]; simpl; [done|]. by rewrite Hx, IH.
Qed.

Lemma bind_singleton {A B} (f : A -> B) (xs : list A) :
  xs ≫= (fun x => [f x]) = f <$> xs.
Proof. induction xs as [|x xs IH]; [done|]. cbn. by rewrite <- IH. Qed.

(** A new table without column metadata in the source (as for a snapshot
    loaded from a script folder) does not stop the table phase: every such
    table gets one TODO comment, in order, and no CREATE TABLE. *)
Theorem table_phase_placeholders (self : ScriptGenerator.t) tables
    (entries : list (string * value)) :
  get (source_metadata self) "tables" (VDict []) = Some (VDict tables) ->
  results_get (ScriptGenerator.results self) "tables"
  = (fun e => item (fst e) MISSING_IN_TARGET (snd e)) <$> entries ->
  entries ≠ [] ->
  Forall (fun e => exists tbl,
            dget tables (fst e) (VDict []) = VDict tbl
            ∧ truthy (dget tbl "columns" (VList [])) = false) entries ->
  _generate_table_phase self
  = Some (banner "-- PHASE 2: TABLES AND COLUMNS"
          ++ ["-- Creating " +:+ pretty (length entries) +:+ " new tables"]
          ++ ((fun e => "-- TODO: CREATE TABLE " +:+ fst e
                        +:+ " (no column metadata available)") <$> entries)
          ++ [""]).
Proof.
  intros Hmeta Hres Hne Hall. unfold _generate_table_phase. rewrite Hres.
  rewrite (filterM_all (has_status MISSING_IN_TARGET)) by (apply Forall_fmap, Forall_forall; intros [n d] _; reflexivity).
  cbn [mbind option_bind].
  rewrite (filterM_none (has_status DIFFERENT)) by (apply Forall_fmap, Forall_forall; intros [n d] _; reflexivity).
  cbn [mbind option_bind].
  rewrite (flat_mapM_Some _ (fun it => ["-- TODO: CREATE TABLE "
                                        +:+ str (default VNone (subscript it "name"))
                                        +:+ " (no column metadata available)"])).
  2:{ apply Forall_fmap. eapply Forall_impl; [exact Hall|].
      intros [n d] (tbl & Htbl & Hcols). unfold compose. cbn beta. cbn [fst snd] in *.
      unfold item at 1. cbn [get dict_lookup String.eqb Ascii.eqb Bool.eqb default mbind option_bind].
      unfold _create_table_statement. rewrite Hmeta. cbn [mbind option_bind get_key as_dict].
      unfold id. rewrite Htbl. cbn [mbind option_bind get]. unfold dget in Hcols. rewrite Hcols.
      reflexivity. }
  destruct entries as [|e entries]; [done|].
  rewrite bind_singleton, <- list_fmap_compose, length_fmap.
  cbn [fmap list_fmap mbind option_bind]. unfold block.
  rewrite <- !app_assoc. reflexivity.
Qed.

(** The statement builders for constraints and programmable objects look
    the source record up under [details["source"]].  For a MISSING_IN_TARGET
    item as [compare] builds it, whose details are the record itself, they
    find nothing and return a TODO comment in place of the statement. *)
Theorem new_objects_get_placeholders (name : string) record obj_type :
  dict_lookup "source" record = None ->
  let it := item name MISSING_IN_TARGET (VDict record) in
  _create_unique_constraint_statement it
  = Some ["-- TODO: CREATE UNIQUE CONSTRAINT " +:+ name +:+ " (no column information)"]
  ∧ _create_check_constraint_statement it
    = Some ["-- TODO: CREATE CHECK CONSTRAINT " +:+ name +:+ " (no definition)"]
  ∧ _create_default_constraint_statement it
    = Some ["-- TODO: CREATE DEFAULT CONSTRAINT " +:+ name +:+ " (missing information)"]
  ∧ _create_programmability_statement obj_type (VStr name) (VDict record)
    = Some ["-- TODO: CREATE " +:+ upper (drop_last obj_type) +:+ " " +:+ name
            +:+ " (no definition available)"].
Proof.
  intros Hsrc it. subst it.
  unfold _create_unique_constraint_statement, _create_check_constraint_statement,
    _create_default_constraint_statement, _create_programmability_statement, item.
  cbn [get mbind option_bind dict_lookup String.eqb Ascii.eqb Bool.eqb default].
  unfold id. cbn [get mbind option_bind]. rewrite !Hsrc. repeat split; reflexivity.
Qed.

End PlaceholderProperties.

Lemma table_phase_placeholders_witness :
  let entries := [("dbo.T", VDict [("definition", VStr "CREATE TABLE dbo.T (id INT)")]);
                  ("dbo.U", VDict [("columns", VList [])])] in
  ScriptGenerator._generate_table_phase
    (ScriptGenerator.init
       [("tables", (fun e => Comparator.item (fst e) Comparator.MISSING_IN_TARGET (snd e))
                     <$> entries)]
       (VDict [("tables", VDict [("dbo.U", VDict [("columns", VList [])])])]) "Db" None)
  = Some (ScriptGenerator.banner "-- PHASE 2: TABLES AND COLUMNS"
          ++ ["-- Creating " +:+ pretty (length entries) +:+ " new tables"]
          ++ ((fun e => "-- TODO: CREATE TABLE " +:+ fst e
                        +:+ " (no column metadata available)") <$> entries)
          ++ [""]).
Proof.
  intros entries.
  apply (table_phase_placeholders _ [("dbo.U", VDict [("columns", VList [])])] entries).
  - reflexivity.
  - reflexivity.
  - discriminate.
  - constructor; [|constructor; [|constructor]].
    + exists []. split; reflexivity.
    + exists [("columns", VList [])]. split; reflexivity.
Defined.

Lemma new_objects_get_placeholders_witness :
  let record := [("definition", VStr "CREATE VIEW dbo.v AS SELECT 1 AS x")] in
  let it := Comparator.item "dbo.v" Comparator.MISSING_IN_TARGET (VDict record) in
  ScriptGenerator._create_unique_constraint_statement it
  = Some ["-- TODO: CREATE UNIQUE CONSTRAINT dbo.v (no column information)"]
  ∧ ScriptGenerator._create_check_constraint_statement it
    = Some ["-- TODO: CREATE CHECK CONSTRAINT dbo.v (no definition)"]
  ∧ ScriptGenerator._create_default_constraint_statement it
    = Some ["-- TODO: CREATE DEFAULT CONSTRAINT dbo.v (missing information)"]
  ∧ ScriptGenerator._create_programmability_statement "views" (VStr "dbo.v") (VDict record)
    = Some ["-- TODO: CREATE VIEW dbo.v (no definition available)"].
Proof.
  intros record it.
  apply (new_objects_get_placeholders "dbo.v" record "views"). reflexivity.
Defined.

Section ComparatorSymmetry.
Import Comparator.
Variable diff_body : value -> value -> string.

Lemma compare_key_missing (src_objs tgt_objs : gmap string value) k key details :
  let src := default VNone (src_objs !! k) in
  let tgt := default VNone (tgt_objs !! k) in
  (compare_key diff_body src_objs tgt_objs k = item key MISSING_IN_TARGET details
   ↔ k = key ∧ truthy src = true ∧ truthy tgt = false ∧ details = src)
  ∧ (compare_key diff_body src_objs tgt_objs k = item key MISSING_IN_SOURCE details
     ↔ k = key ∧ truthy src = false ∧ truthy tgt = true ∧ details = tgt).
Proof.
  intros src tgt. unfold compare_key. fold src tgt.
  unfold item, MISSING_IN_TARGET, MISSING_IN_SOURCE, IDENTICAL, DIFFERENT.
  destruct (truthy src), (truthy tgt); cbn [andb negb];
    repeat case_match; split; split;
    first [ intros [= -> ->]; done | intros [= ->]; done | intros [=]
          | intros (-> & ? & ? & ->); done | intros (_ & ? & ? & _); done ].
Qed.

(** Comparing in the other direction swaps the two missing statuses: what
    [compare] reports as MISSING_IN_TARGET for source and target it reports
    as MISSING_IN_SOURCE, with the same details, for target and source. *)
Theorem swapped_compare_swaps_missing (source target : snapshot) obj_type key details :
  item key MISSING_IN_TARGET details ∈ compare_type diff_body source target obj_type
  ↔ item key MISSING_IN_SOURCE details ∈ compare_type diff_body target source obj_type.
Proof.
  unfold compare_type. rewrite !list_elem_of_fmap.
  split; intros (k & Heq & Hin); exists k; symmetry in Heq;
    rewrite sorted_elem_of in *.
  - apply compare_key_missing in Heq. split; [|apply elem_of_union; apply elem_of_union in Hin; tauto].
    symmetry. apply compare_key_missing. tauto.
  - apply compare_key_missing in Heq. split; [|apply elem_of_union; apply elem_of_union in Hin; tauto].
    symmetry. apply compare_key_missing. tauto.
Qed.

End ComparatorSymmetry.

Section DropPhaseProperties.
Import ScriptGenerator Comparator.

Lemma has_status_defined status status' it b :
  has_status status it = Some b -> is_Some (has_status status' it).
Proof.
  unfold has_status. destruct (get it "status" VNone); [|done]. by eexists.
Qed.

(** The drop phase drops no table.  A table of the target alone
    (MISSING_IN_SOURCE) is skipped, and only a DIFFERENT table can lose
    foreign keys: when no table is DIFFERENT and no trigger, view, procedure,
    function or synonym is MISSING_IN_SOURCE, the phase is its banner. *)
Theorem drop_phase_keeps_tables (self : ScriptGenerator.t) :
  Forall (fun table => has_status DIFFERENT table = Some false)
         (results_get (ScriptGenerator.results self) "tables") ->
  (forall obj_type, obj_type ∈ ["triggers"; "views"; "procedures"; "functions"; "synonyms"] ->
     Forall (fun it => has_status MISSING_IN_SOURCE it = Some false)
            (results_get (ScriptGenerator.results self) obj_type)) ->
  _generate_drop_phase self
  = Some (banner "-- PHASE 1: DROP EXTRA OBJECTS (MISSING_IN_SOURCE)").
Proof.
  intros Htables Hothers. unfold _generate_drop_phase.
  rewrite (flat_mapM_Some table_fks_to_drop (fun _ => [])).
  2:{ eapply Forall_impl; [exact Htables|]. intros table Hd.
      unfold table_fks_to_drop. rewrite Hd.
      destruct (has_status_defined _ MISSING_IN_SOURCE _ _ Hd) as [b ->].
      by destruct b. }
  rewrite bind_nil. cbn [mbind option_bind].
  rewrite (flat_mapM_Some _ (fun _ => [])).
  2:{ apply Forall_forall. intros obj_type Hin.
      rewrite (filterM_none _ _ (Hothers obj_type Hin)). reflexivity. }
  rewrite bind_nil. cbn [mbind option_bind]. by rewrite !app_nil_r.
Qed.

End DropPhaseProperties.


Lemma drop_phase_keeps_tables_witness :
  ScriptGenerator._generate_drop_phase
    (ScriptGenerator.init
       [("tables", [Comparator.item "dbo.Old" Comparator.MISSING_IN_SOURCE
                      (VDict [("columns", VList [VDict [("name", VStr "id")]])])]);
        ("views", [Comparator.item "dbo.v" Comparator.IDENTICAL (VDict [])])]
       (VDict []) "Db" None)
  = Some (ScriptGenerator.banner "-- PHASE 1: DROP EXTRA OBJECTS (MISSING_IN_SOURCE)").
Proof.
  apply drop_phase_keeps_tables.
  - repeat constructor.
  - intros obj_type Hin.
    repeat (apply elem_of_cons in Hin as [-> | Hin]; [repeat constructor|]).
    by apply elem_of_nil in Hin.
Defined.

Section DiffCoverage.
Import DiffGenerator.
Local Open Scope nat_scope.


Lemma fmap_fmap_id {A B} (f : A -> B) (g : B -> A) (l : list A) :
  (forall x, g (f x) = x) -> g <$> (f <$> l) = l.
Proof. intros Hgf. induction l as [|x l IH]; [done|]. cbn. by rewrite Hgf, IH. Qed.

Lemma pad_pairs_left ls rs : ls `sublist_of` ((fun r : row => fst (fst r)) <$> pad_pairs ls rs).
Proof.
  revert rs. induction ls as [|l ls IH]; intros rs; [apply sublist_nil_l|].
  destruct rs; cbn; by apply sublist_skip.
Qed.

Lemma pad_pairs_right ls rs : rs `sublist_of` ((fun r : row => snd (fst r)) <$> pad_pairs ls rs).
Proof.
  revert rs. induction ls as [|l ls IH]; intros rs.
  - destruct rs as [|r rs]; [apply sublist_nil_l|]. cbn [pad_pairs].
    by rewrite (fmap_fmap_id (fun r => ("", r, "chg")) (fun r : row => snd (fst r))).
  - destruct rs; cbn; [apply sublist_nil_l|]. by apply sublist_skip.
Qed.

Lemma slice_empty {A} (l : list A) i : slice l i i = [].
Proof. unfold slice. by rewrite Nat.sub_diag. Qed.

Lemma slice_drop {A} (l : list A) i j : i ≤ j -> slice l i j ++ drop j l = drop i l.
Proof.
  intros Hij. unfold slice.
  replace (drop j l) with (drop (j - i) (drop i l)).
  - apply take_drop.
  - rewrite drop_drop. f_equal. lia.
Qed.

Lemma tile_ok_spec i j op :
  tile_ok i j op = true ->
  a0 op = i ∧ b0 op = j ∧ a0 op ≤ a1 op ∧ b0 op ≤ b1 op
  ∧ tag op ∈ ["equal"; "insert"; "delete"; "replace"]
  ∧ (tag op = "insert" -> a0 op = a1 op)
  ∧ (tag op = "delete" -> b0 op = b1 op)
  ∧ (tag op = "equal" -> a1 op - a0 op = b1 op - b0 op).
Proof.
  unfold tile_ok. rewrite !andb_true_iff, !orb_true_iff, !negb_true_iff.
  rewrite !Nat.eqb_eq, !Nat.leb_le, bool_decide_eq_true.
  intros (((((((? & ?) & ?) & ?) & ?) & Hi) & Hd) & He).
  repeat split; try done.
  - intros Ht. destruct Hi as [Hi|]; [|done]. by rewrite Ht in Hi.
  - intros Ht. destruct Hd as [Hd|]; [|done]. by rewrite Ht in Hd.
  - intros Ht. destruct He as [He|]; [|done]. by rewrite Ht in He.
Qed.

Lemma span_rows_cover a b i j op :
  opcode_ok a b op = true -> tile_ok i j op = true ->
  slice a (a0 op) (a1 op) `sublist_of` ((fun r : row => fst (fst r)) <$> span_rows a b op)
  ∧ slice b (b0 op) (b1 op) `sublist_of` ((fun r : row => snd (fst r)) <$> span_rows a b op)
  ∧ length (span_rows a b op) = (a1 op - a0 op) `max` (b1 op - b0 op).
Proof.
  unfold opcode_ok. rewrite !andb_true_iff, orb_true_iff, negb_true_iff, !bool_decide_eq_true.
  intros [[[_ Ha] [_ Hb]] Heq]
    (_ & _ & Hle_a & Hle_b & Htag & Hins & Hdel & Hequal)%tile_ok_spec.
  unfold span_rows.
  repeat (apply elem_of_cons in Htag as [Htag | Htag]); [| | | |by apply elem_of_nil in Htag];
    rewrite Htag; cbn [String.eqb Ascii.eqb Bool.eqb].
  - rewrite Htag in Heq. destruct Heq as [Heq|Heq]; [done|].
    rewrite length_fmap, slice_length by done.
    rewrite (fmap_fmap_id (fun l => (l, l, "same")) (fun r : row => fst (fst r))) by done.
    rewrite (fmap_fmap_id (fun l => (l, l, "same")) (fun r : row => snd (fst r))) by done.
    specialize (Hequal Htag). rewrite <- Heq. repeat split; [reflexivity..|lia].
  - specialize (Hins Htag). rewrite Hins, slice_empty.
    rewrite length_fmap, slice_length by done.
    rewrite (fmap_fmap_id (fun r => ("", r, "del")) (fun r : row => snd (fst r))) by done.
    repeat split; [apply sublist_nil_l|reflexivity|lia].
  - specialize (Hdel Htag). rewrite Hdel, slice_empty.
    rewrite length_fmap, slice_length by done.
    rewrite (fmap_fmap_id (fun l => (l, "", "add")) (fun r : row => fst (fst r))) by done.
    repeat split; [reflexivity|apply sublist_nil_l|lia].
  - rewrite pad_pairs_length, !slice_length by done.
    repeat split; [apply pad_pairs_left|apply pad_pairs_right].
Qed.

Lemma tiles_cover a b ops : forall i j,
  forallb (opcode_ok a b) ops = true ->
  opcodes_tile i j ops (length a) (length b) = true ->
  let rows := mjoin (span_rows a b <$> ops) in
  i ≤ length a ∧ j ≤ length b
  ∧ drop i a `sublist_of` ((fun r : row => fst (fst r)) <$> rows)
  ∧ drop j b `sublist_of` ((fun r : row => snd (fst r)) <$> rows)
  ∧ (length a - i) `max` (length b - j) ≤ length rows
  ∧ length rows ≤ (length a - i) + (length b - j).
Proof.
  induction ops as [|op ops IH]; intros i j Hok Htile.
  - cbn in Htile. apply andb_true_iff in Htile as [->%Nat.eqb_eq ->%Nat.eqb_eq].
    rewrite !drop_all. cbn. repeat split; try done; lia.
  - cbn [forallb] in Hok. apply andb_true_iff in Hok as [Hop Hok].
    cbn [opcodes_tile] in Htile. apply andb_true_iff in Htile as [Hhead Htile].
    destruct (IH _ _ Hok Htile) as (Hi & Hj & Hl & Hr & Hlo & Hhi).
    destruct (span_rows_cover a b i j op Hop Hhead) as (Hl0 & Hr0 & Hlen).
    apply tile_ok_spec in Hhead as (<- & <- & Hle_a & Hle_b & _).
    cbn zeta.
    change (mjoin (span_rows a b <$> op :: ops))
      with (span_rows a b op ++ mjoin (span_rows a b <$> ops)).
    rewrite !fmap_app, length_app, Hlen.
    rewrite <- (slice_drop a (a0 op) (a1 op)), <- (slice_drop b (b0 op) (b1 op)) by done.
    split; [lia|]. split; [lia|]. split; [by apply sublist_app|].
    split; [by apply sublist_app|].
    clear Hl Hr. revert Hlo Hhi.
    generalize (length (mjoin (span_rows a b <$> ops))). intros n Hlo Hhi. lia.
Qed.

(** On opcodes as [difflib] documents them, the side-by-side view loses no
    line: the source lines are, in order, among the left entries of the
    rows, the target lines among the right entries, and the number of rows
    lies between the longer of the two texts and their sum. *)
Theorem side_by_side_keeps_every_line
    (get_opcodes : list string -> list string -> list opcode) (self : DiffGenerator.t) :
  let ops := get_opcodes (source self) (target self) in
  forallb (opcode_ok (source self) (target self)) ops = true ->
  opcodes_tile 0 0 ops (length (source self)) (length (target self)) = true ->
  exists rows,
    side_by_side get_opcodes self = Some rows
    ∧ source self `sublist_of` ((fun r : row => fst (fst r)) <$> rows)
    ∧ target self `sublist_of` ((fun r : row => snd (fst r)) <$> rows)
    ∧ length (source self) `max` length (target self) ≤ length rows
    ∧ length rows ≤ length (source self) + length (target self).
Proof.
  intros ops Hok Htile. destruct self as [a b]. cbn [source target] in *.
  exists (mjoin (span_rows a b <$> ops)).
  destruct (tiles_cover a b ops 0 0 Hok Htile) as (_ & _ & Hl & Hr & Hlo & Hhi).
  rewrite !Nat.sub_0_r in *. rewrite !drop_0 in *.
  repeat split; try done.
  unfold side_by_side. cbn [source target]. fold ops.
  rewrite (mapM_Some_fmap _ (span_rows a b)); [done|].
  apply Forall_forall. intros op Hop. apply opcode_rows_span.
  rewrite forallb_forall in Hok. apply Hok. by apply list_elem_of_In.
Qed.

End DiffCoverage.


Lemma side_by_side_keeps_every_line_witness :
  let get_opcodes := fun _ _ : list string =>
    [DiffGenerator.Op "equal" 0 1 0 1; DiffGenerator.Op "replace" 1 2 1 3;
     DiffGenerator.Op "delete" 2 3 3 3; DiffGenerator.Op "insert" 3 3 3 4] in
  let self := DiffGenerator.mk ["a"; "b"; "c"] ["a"; "x"; "y"; "z"] in
  exists rows,
    DiffGenerator.side_by_side get_opcodes self = Some rows
    ∧ DiffGenerator.source self `sublist_of` ((fun r : DiffGenerator.row => fst (fst r)) <$> rows)
    ∧ DiffGenerator.target self `sublist_of` ((fun r : DiffGenerator.row => snd (fst r)) <$> rows)
    ∧ (length (DiffGenerator.source self) `max` length (DiffGenerator.target self)
       ≤ length rows)%nat
    ∧ (length rows
       ≤ length (DiffGenerator.source self) + length (DiffGenerator.target self))%nat.
Proof.
  intros get_opcodes self.
  apply (side_by_side_keeps_every_line get_opcodes self); reflexivity.
Defined.

Section SameColumns.
Import ScriptGenerator.













End SameColumns.



Section KahnLoop.
Import ScriptGenerator.

Lemma count_pop (dep : string -> list string) (l ordered : list string) node b :
  NoDup l -> node ∉ ordered ->
  length (filter (fun a => (a ∉ ordered) ∧ (b ∈ dep a)) l)
  = (length (filter (fun a => (a ∉ ordered ++ [node]) ∧ (b ∈ dep a)) l)
     + (if bool_decide (node ∈ l ∧ b ∈ dep node) then 1 else 0))%nat.
Proof.
  intros Hnd Hout. induction Hnd as [|a l Ha Hl IH]; [done|].
  rewrite !filter_cons. revert IH.
  destruct (decide (a = node)) as [-> | Hne].
  - destruct (bool_decide (node ∈ l ∧ b ∈ dep node)) eqn:H1;
      [apply bool_decide_eq_true in H1; tauto|].
    destruct (decide (b ∈ dep node)) as [Hb|Hb].
    + rewrite bool_decide_eq_true_2 by (split; [apply list_elem_of_here|done]).
      rewrite decide_True by done.
      rewrite decide_False by (rewrite elem_of_app, list_elem_of_singleton; tauto).
      cbn [length]. lia.
    + rewrite bool_decide_eq_false_2 by tauto.
      rewrite !decide_False by tauto. lia.
  - assert (bool_decide (node ∈ a :: l ∧ b ∈ dep node) = bool_decide (node ∈ l ∧ b ∈ dep node))
      as ->.
    { apply bool_decide_ext. rewrite elem_of_cons. split; [|tauto].
      intros [[?|?] ?]; [congruence|tauto]. }
    destruct (decide ((a ∉ ordered) ∧ (b ∈ dep a))) as [Hp|Hp].
    + rewrite decide_True by (rewrite elem_of_app, list_elem_of_singleton; tauto).
      cbn [length]. lia.
    + rewrite decide_False by (rewrite elem_of_app, list_elem_of_singleton; tauto).
      done.
Qed.

Variable set_order : list string -> list string.
Hypothesis set_order_perm : forall l, set_order l ≡ₚ l.
Variable names : list string.
Hypothesis names_NoDup : NoDup names.
Variable dep : string -> list string.
Hypothesis dep_NoDup : forall a, NoDup (dep a).
Hypothesis dep_names : forall a b, b ∈ dep a -> b ∈ names.

Lemma unreleased_nonneg ordered b : 0 <= unreleased names dep ordered b.
Proof. unfold unreleased. lia. Qed.

(** Popping [node] releases the names of its set. *)
Lemma unreleased_pop ordered node b :
  node ∈ names -> node ∉ ordered ->
  unreleased names dep ordered b
  = unreleased names dep (ordered ++ [node]) b
    + (if bool_decide (b ∈ dep node) then 1 else 0).
Proof.
  unfold unreleased. intros Hin Hout.
  rewrite (count_pop dep names ordered node b) by done.
  repeat case_bool_decide; try lia; exfalso; tauto.
Qed.

(** The inner loop keeps the invariant and ends with nothing pending. *)
Lemma release_invariant pending : forall indegree queue ordered,
  NoDup pending -> (forall b, b ∈ pending -> b ∈ names) ->
  kahn_invariant names dep pending indegree queue ordered ->
  let '(indegree', queue') :=
    foldl (fun st dep =>
             let '(indegree, queue) := st in
             let d := default 0 (dict_lookup dep indegree) - 1 in
             (dict_set dep d indegree, if d =? 0 then queue ++ [dep] else queue))
          (indegree, queue) pending in
  kahn_invariant names dep [] indegree' queue' ordered.
Proof.
  induction pending as [|x pending IH]; intros indegree queue ordered Hnd Hsub Hinv.
  - done.
  - cbn [foldl]. apply NoDup_cons in Hnd as [Hx Hnd].
    destruct Hinv as (Hq & Hqn & Hlook & Hzero).
    assert (x ∈ names) as Hxn by (apply Hsub, list_elem_of_here).
    pose proof (unreleased_nonneg ordered x) as Hpos.
    assert (x ∉ ordered ++ queue) as Hxq.
    { intros Hin. specialize (Hzero x Hin).
      rewrite bool_decide_eq_true_2 in Hzero by apply list_elem_of_here. lia. }
    rewrite (Hlook x Hxn). rewrite bool_decide_eq_true_2 by apply list_elem_of_here.
    cbn [default from_option id].
    replace (unreleased names dep ordered x + 1 - 1) with (unreleased names dep ordered x) by lia.
    apply IH; [done| |].
    { intros b Hb. apply Hsub. by apply list_elem_of_further. }
    assert (forall b, b ≠ x ->
              (if bool_decide (b ∈ x :: pending) then 1 else 0)
              = (if bool_decide (b ∈ pending) then 1 else 0)) as Hind.
    { intros b Hb. apply (f_equal (fun c : bool => if c then 1 else 0)).
      apply bool_decide_ext. rewrite elem_of_cons. tauto. }
    assert (forall b, b ∈ names ->
              dict_lookup b (dict_set x (unreleased names dep ordered x) indegree)
              = Some (unreleased names dep ordered b
                      + (if bool_decide (b ∈ pending) then 1 else 0))) as Hlook'.
    { intros b Hb. rewrite dict_lookup_dict_set.
      destruct (String.eqb_spec b x) as [-> | Hne].
      - rewrite bool_decide_eq_false_2 by done. f_equal. lia.
      - rewrite <- Hind by done. by apply Hlook. }
    destruct (unreleased names dep ordered x =? 0) eqn:Hd.
    + apply Z.eqb_eq in Hd. repeat split.
      * rewrite app_assoc. apply NoDup_app. split; [done|]. split.
        -- intros y Hy ->%list_elem_of_singleton. done.
        -- apply NoDup_singleton.
      * intros b. rewrite app_assoc, elem_of_app, list_elem_of_singleton.
        intros [Hb | ->]; [by apply Hqn|done].
      * exact Hlook'.
      * intros b. rewrite app_assoc, elem_of_app, list_elem_of_singleton.
        intros [Hb | ->].
        -- rewrite <- Hind; [by apply Hzero|]. by intros ->.
        -- rewrite bool_decide_eq_false_2 by done. lia.
    + repeat split; [done|done|exact Hlook'|].
      intros b Hb. rewrite <- Hind; [by apply Hzero|]. by intros ->.
Qed.

(** The outer loop: with fuel for every node that is still to pop, it
    returns, and what it returns has no name twice and only names. *)
Lemma kahn_invariant_result fuel : forall indegree queue ordered,
  kahn_invariant names dep [] indegree queue ordered ->
  (length names < fuel + length ordered)%nat ->
  exists keys,
    kahn set_order fuel ((fun a => (a, dep a)) <$> names) indegree queue ordered = Some keys
    ∧ NoDup keys ∧ (forall b, b ∈ keys -> b ∈ names).
Proof.
  induction fuel as [|fuel IH]; intros indegree queue ordered Hinv Hfuel.
  - destruct Hinv as (Hq & Hqn & _).
    destruct queue as [|node queue].
    + exists ordered. rewrite app_nil_r in *. done.
    + exfalso. assert (length (ordered ++ node :: queue) <= length names)%nat as Hlen.
      { apply submseteq_length, NoDup_submseteq; done. }
      rewrite length_app in Hlen. simpl in *. lia.
  - destruct queue as [|node queue].
    + destruct Hinv as (Hq & Hqn & _). exists ordered. rewrite app_nil_r in *. done.
    + cbn [kahn]. unfold release.
      assert (node ∈ names) as Hnode.
      { destruct Hinv as (_ & Hqn & _). apply Hqn. rewrite elem_of_app, elem_of_cons. tauto. }
      assert (dict_lookup node ((fun a => (a, dep a)) <$> names) = Some (dep node)) as ->.
      { apply dict_lookup_Some.
        - rewrite <- list_fmap_compose. by rewrite (list_fmap_ext _ id names), list_fmap_id.
        - apply list_elem_of_fmap. by exists node. }
      cbn [default from_option id].
      pose proof (release_invariant (set_order (dep node)) indegree queue (ordered ++ [node]))
        as Hrel.
      destruct (foldl _ (indegree, queue) (set_order (dep node))) as [indegree' queue'].
      apply IH.
      * apply Hrel.
        -- rewrite set_order_perm. apply dep_NoDup.
        -- intros b. rewrite set_order_perm. apply dep_names.
        -- destruct Hinv as (Hq & Hqn & Hlook & Hzero).
           assert (node ∉ ordered) as Hout.
           { apply NoDup_app in Hq as (_ & Hq & _).
             intros Hin. apply (Hq node Hin). apply list_elem_of_here. }
           assert (forall b,
                     unreleased names dep ordered b + 0
                     = unreleased names dep (ordered ++ [node]) b
                       + (if bool_decide (b ∈ set_order (dep node)) then 1 else 0)) as Hpop.
           { intros b. rewrite (unreleased_pop ordered node b) by done.
             rewrite Z.add_0_r. f_equal.
             apply (f_equal (fun c : bool => if c then 1 else 0)).
             apply bool_decide_ext. by rewrite set_order_perm. }
           repeat split.
           ++ by rewrite <- app_assoc.
           ++ intros b. rewrite <- app_assoc. apply Hqn.
           ++ intros b Hb. rewrite <- Hpop. rewrite (Hlook b Hb).
              by rewrite bool_decide_eq_false_2 by apply not_elem_of_nil.
           ++ intros b Hb. rewrite <- Hpop. rewrite <- app_assoc in Hb.
              specialize (Hzero b Hb).
              by rewrite bool_decide_eq_false_2 in Hzero by apply not_elem_of_nil.
      * rewrite length_app. simpl. lia.
Qed.

End KahnLoop.

Section OrderCoverage.
Import ScriptGenerator.

Variable set_order : list string -> list string.
Hypothesis set_order_perm : forall l, set_order l ≡ₚ l.

Lemma indegree_of_unreleased (dep : string -> list string) (l names : list string) b :
  length (filter (fun kv : string * list string => b ∈ snd kv) ((fun a => (a, dep a)) <$> l))
  = length (filter (fun a => (a ∉ @nil string) ∧ (b ∈ dep a)) l).
Proof.
  induction l as [|a l IH]; [done|].
  rewrite fmap_cons, !filter_cons. cbn [snd].
  repeat case_decide; cbn [length]; rewrite ?IH; try done; exfalso.
  - apply H0. split; [apply not_elem_of_nil|done].
  - tauto.
Qed.

Lemma dict_lookup_fmap_key {A} (f : string -> A) (l : list string) k :
  k ∈ l -> dict_lookup k ((fun a => (a, f a)) <$> l) = Some (f k).
Proof.
  induction l as [|a l IH]; [by intros ?%elem_of_nil|].
  rewrite fmap_cons. cbn [dict_lookup].
  destruct (String.eqb_spec k a) as [-> | Hne]; [done|].
  intros [?|?]%elem_of_cons; [done|by apply IH].
Qed.

Lemma ordered_names_permutation names def_by_name :
  NoDup names ->
  exists keys, ordered_names set_order names def_by_name = Some keys ∧ keys ≡ₚ names.
Proof.
  intros Hnd. unfold ordered_names.
  set (dep := dependencies names def_by_name).
  assert (forall a, NoDup (dep a)) as Hdep_nd.
  { intros a. unfold dep, dependencies. case_match; [apply NoDup_nil_2|by apply NoDup_filter]. }
  assert (forall a b, b ∈ dep a -> b ∈ names) as Hdep_names.
  { intros a b. unfold dep, dependencies. case_match; [by intros ?%elem_of_nil|].
    by intros [_ ?]%list_elem_of_filter. }
  set (indegree := (fun n => (n, indegree_of _ n)) <$> names).
  assert (forall b, b ∈ names ->
            dict_lookup b indegree = Some (unreleased names dep [] b + 0)) as Hlook.
  { intros b Hb. unfold indegree.
    rewrite (dict_lookup_fmap_key (indegree_of ((fun a => (a, dep a)) <$> names))) by done.
    unfold indegree_of, unreleased.
    by rewrite (indegree_of_unreleased dep names names b), Z.add_0_r. }
  destruct (kahn_invariant_result set_order set_order_perm names Hnd dep Hdep_nd Hdep_names
              (S (length names * length names)) indegree
              (filter (fun n => default 0 (dict_lookup n indegree) = 0) names) [])
    as (keys & -> & Hkeys_nd & Hkeys).
  - repeat split.
    + by apply NoDup_filter.
    + by intros b [_ ?]%list_elem_of_filter.
    + exact Hlook.
    + intros b [Hz Hb]%list_elem_of_filter. rewrite (Hlook b Hb) in Hz. exact Hz.
  - simpl. nia.
  - cbn [mbind option_bind]. eexists. split; [reflexivity|].
    destruct (length keys <? length names)%nat eqn:Hlen.
    + apply NoDup_Permutation; [|done|].
      * apply NoDup_app. split; [done|]. split; [|by apply NoDup_filter].
        intros x Hx [Hx' _]%list_elem_of_filter. done.
      * intros x. rewrite elem_of_app, list_elem_of_filter.
        split; [intros [?|[_ ?]]; auto|].
        intros Hx. destruct (decide (x ∈ keys)); auto.
    + apply Nat.ltb_ge in Hlen.
      apply submseteq_length_Permutation; [|done]. by apply NoDup_submseteq.
Qed.

Lemma dict_set_key_elem_of {A} k (v : A) d x :
  x ∈ fst <$> dict_set k v d -> x = k ∨ x ∈ fst <$> d.
Proof.
  induction d as [|[k' v'] d IH]; cbn [dict_set].
  - simpl. rewrite list_elem_of_singleton. auto.
  - destruct (String.eqb k k'); rewrite !fmap_cons, !elem_of_cons; cbn [fst]; [auto|].
    intros [?|?]; [auto|]. destruct IH; auto.
Qed.

Lemma dict_set_NoDup {A} k (v : A) d :
  NoDup (fst <$> d) -> NoDup (fst <$> dict_set k v d).
Proof.
  induction d as [|[k' v'] d IH]; cbn [dict_set].
  - intros _. apply NoDup_singleton.
  - destruct (String.eqb_spec k k') as [-> | Hne]; [done|].
    rewrite !fmap_cons, !NoDup_cons. cbn [fst]. intros [Hk' Hd]. split; [|by apply IH].
    intros [?|?]%dict_set_key_elem_of; done.
Qed.

Lemma foldl_invariant {A B} (P : A -> Prop) (f : A -> B -> A) l : forall init,
  (forall acc x, P acc -> P (f acc x)) -> P init -> P (foldl f init l).
Proof. induction l as [|x l IH]; intros init Hf Hinit; simpl; auto. Qed.

Lemma collect_nodes_NoDup self nodes :
  collect_nodes self = Some nodes -> NoDup (fst <$> nodes).
Proof.
  unfold collect_nodes. revert nodes.
  apply (foldl_invariant
           (fun acc : option (list (string * (string * value))) =>
              forall nodes, acc = Some nodes -> NoDup (fst <$> nodes))).
  - intros acc obj_type Hacc.
    apply (foldl_invariant
             (fun acc : option (list (string * (string * value))) =>
                forall nodes, acc = Some nodes -> NoDup (fst <$> nodes))); [|done].
    clear. intros acc item Hacc nodes.
    destruct acc as [nodes0|]; cbn [mbind option_bind]; [|done].
    destruct (has_status Comparator.MISSING_IN_TARGET item); cbn [mbind option_bind]; [|done].
    destruct (has_status Comparator.DIFFERENT item); cbn [mbind option_bind]; [|done].
    case_match; [intros [= <-]; by apply Hacc|].
    destruct (get item "name" VNone) as [name|]; cbn [mbind option_bind]; [|done].
    case_match; [intros [= <-]; by apply Hacc|].
    destruct (lower <$> as_str name); cbn [mbind option_bind]; [|done].
    intros [= <-]. apply dict_set_NoDup. by apply Hacc.
  - intros nodes [= <-]. apply NoDup_nil_2.
Qed.

Lemma mapM_Some_sig {A B} (f : A -> option B) (l : list A) :
  Forall (fun x => is_Some (f x)) l -> is_Some (mapM f l).
Proof.
  induction 1 as [|x l [y Hy] _ [ys IH]]; [by eexists|].
  simpl. rewrite Hy, IH. by eexists.
Qed.

(** [_ordered_programmability_items] returns every collected object
    exactly once, each in a group of its own, whatever the references
    between the definitions are (cycles too) and in whatever order Python
    iterates over the sets. *)
Theorem every_object_is_ordered_once (self : ScriptGenerator.t) nodes :
  collect_nodes self = Some nodes ->
  Forall (fun kv => is_Some (node_definition (snd (snd kv)))) nodes ->
  exists ordered,
    _ordered_programmability_items set_order self = Some ordered
    ∧ ordered ≡ₚ (fun kv => (fst (snd kv), [snd (snd kv)])) <$> nodes.
Proof.
  intros Hnodes Hdefs. unfold _ordered_programmability_items. rewrite Hnodes.
  cbn [mbind option_bind].
  destruct nodes as [|node nodes']; [by exists []|].
  set (nodes := node :: nodes') in *.
  pose proof (collect_nodes_NoDup _ _ Hnodes) as Hnd.
  destruct (mapM_Some_sig (fun kv : string * (string * value) =>
                             d ← node_definition (snd (snd kv)); Some (fst kv, d)) nodes)
    as [def_by_name ->].
  { eapply Forall_impl; [exact Hdefs|]. intros kv [d ->]. by eexists. }
  cbn [mbind option_bind].
  destruct (ordered_names_permutation (fst <$> nodes) def_by_name Hnd) as (keys & -> & Hperm).
  cbn [mbind option_bind].
  set (g := fun key => let n := default ("", VNone) (dict_lookup key nodes) in
                       (fst n, [snd n])).
  exists (g <$> keys). split.
  - apply mapM_Some_fmap. apply Forall_forall. intros key Hkey.
    rewrite Hperm in Hkey. destruct (dict_lookup_is_Some _ _ Hkey) as [n Hn].
    unfold g. by rewrite Hn.
  - rewrite Hperm, <- list_fmap_compose.
    assert (g ∘ fst <$> nodes = (fun kv => (fst (snd kv), [snd (snd kv)])) <$> nodes) as ->;
      [|done].
    apply list_fmap_ext. intros i [k n] Hin. unfold g, compose. cbn [fst].
    rewrite (dict_lookup_Some k n nodes); [done..|]. by eapply list_elem_of_lookup_2.
Qed.

End OrderCoverage.


Lemma every_object_is_ordered_once_witness :
  exists ordered,
    ScriptGenerator._ordered_programmability_items id view_calls_function = Some ordered
    ∧ ordered ≡ₚ (fun kv : string * (string * value) => (fst (snd kv), [snd (snd kv)]))
                   <$> [("dbo.f", ("functions", function_f)); ("dbo.v", ("views", view_v))].
Proof.
  apply (every_object_is_ordered_once id).
  - reflexivity.
  - reflexivity.
  - repeat constructor; by eexists.
Defined.

Section RollbackProperties.
Import ScriptGenerator Comparator.

Lemma filterM_Some {A} (p : A -> option bool) xs :
  Forall (fun x => is_Some (p x)) xs ->
  exists ys, filterM p xs = Some ys
    ∧ forall x, x ∈ ys <-> x ∈ xs ∧ p x = Some true.
Proof.
  induction 1 as [|x xs [b Hb] _ (ys & Hys & Hiff)].
  - exists []. split; [done|]. intros x. split; [by intros ?%elem_of_nil|].
    by intros [?%elem_of_nil _].
  - simpl. rewrite Hb, Hys. cbn [mbind option_bind]. eexists. split; [done|].
    intros y. destruct b.
    + rewrite !elem_of_cons, Hiff. split; [|tauto].
      intros [-> | ?]; tauto.
    + rewrite elem_of_cons, Hiff. split; [tauto|].
      intros [[-> | ?] Hy]; [congruence|tauto].
Qed.

(** The rollback script drops every table that the forward script creates:
    when no table is DIFFERENT (those need their column changes reverted),
    the rollback script is generated and holds, for every MISSING_IN_TARGET
    table with a name, the guarded DROP TABLE of that name. *)
Theorem rollback_drops_every_new_table (self : ScriptGenerator.t) :
  Forall (fun table => has_status DIFFERENT table = Some false)
         (results_get (ScriptGenerator.results self) "tables") ->
  exists rb,
    _generate_rollback self = Some rb
    ∧ forall (name : string) details,
        item name MISSING_IN_TARGET details ∈ results_get (ScriptGenerator.results self) "tables" ->
        name ≠ "" ->
        ("IF OBJECT_ID('" +:+ name +:+ "', 'U') IS NOT NULL DROP TABLE " +:+ name +:+ ";") ∈ rb.
Proof.
  intros Htables. unfold _generate_rollback.
  rewrite (filterM_none (has_status DIFFERENT)) by done.
  cbn [mbind option_bind]. rewrite flat_mapM_nil. cbn [mbind option_bind].
  destruct (filterM_Some (has_status MISSING_IN_TARGET)
              (results_get (ScriptGenerator.results self) "tables"))
    as (new_tables & -> & Hnew).
  { eapply Forall_impl; [exact Htables|]. intros table Ht.
    by apply (has_status_defined DIFFERENT _ _ false). }
  cbn [mbind option_bind].
  set (f := fun table : value => _).
  destruct (flat_mapM f new_tables) as [drop_lines|] eqn:Hdrop.
  - cbn [mbind option_bind]. eexists. split; [reflexivity|].
    intros name details Hin Hname.
    do 17 apply list_elem_of_further. rewrite !elem_of_app. right. left.
    apply (flat_mapM_elem_of _ _ _ Hdrop).
    eexists (item name MISSING_IN_TARGET details), _. split; [|split].
    + apply Hnew. by split.
    + unfold f, item. cbn [get dict_lookup String.eqb Ascii.eqb Bool.eqb default from_option id
                             mbind option_bind truthy].
      destruct (String.eqb_spec name "") as [->|_]; [exfalso; by apply Hname|].
      cbn [negb]. reflexivity.
    + apply list_elem_of_further, list_elem_of_here.
  - exfalso. revert Hdrop.
    assert (Forall (fun t => is_Some (f t)) new_tables) as Hall.
    { apply Forall_forall. intros t [_ Ht]%Hnew. unfold f.
      unfold has_status in Ht. destruct t; try done; by eexists. }
    clear -Hall. induction Hall as [|t ts [y Hy] _ IH]; [done|].
    rewrite flat_mapM_cons, Hy. cbn [mbind option_bind].
    destruct (flat_mapM f ts); [done|]. by intros _; apply IH.
Qed.

End RollbackProperties.


Lemma rollback_drops_every_new_table_witness :
  let self := ScriptGenerator.init
                [("tables", [Comparator.item "dbo.New" Comparator.MISSING_IN_TARGET (VDict []);
                             Comparator.item "dbo.Same" Comparator.IDENTICAL (VDict [])])]
                (VDict []) "Db" None in
  exists rb,
    ScriptGenerator._generate_rollback self = Some rb
    ∧ forall (name : string) details,
        Comparator.item name Comparator.MISSING_IN_TARGET details
          ∈ Comparator.results_get (ScriptGenerator.results self) "tables" ->
        name ≠ "" ->
        ("IF OBJECT_ID('" +:+ name +:+ "', 'U') IS NOT NULL DROP TABLE " +:+ name +:+ ";") ∈ rb.
Proof.
  intros self. apply (rollback_drops_every_new_table self).
  repeat constructor.
Defined.

Section SummarizeErrors.
Import Comparator.

Lemma dict_lookup_None {A} k (d : list (string * A)) :
  k ∉ fst <$> d -> dict_lookup k d = None.
Proof.
  induction d as [|[k' v] d IH]; cbn [dict_lookup]; [done|].
  rewrite fmap_cons, not_elem_of_cons. cbn [fst]. intros [Hne Hk].
  destruct (String.eqb_spec k k'); [done|by apply IH].
Qed.

Lemma summarize_fold_None items :
  foldl (fun acc item =>
           summary ← acc;
           status ← subscript item "status" ≫= as_str;
           n ← dict_lookup status summary;
           Some (dict_set status (n + 1) summary))
        None items = None.
Proof. by induction items. Qed.

Lemma summarize_fold_raises items : forall summary,
  fst <$> summary = STATUSES ->
  foldl (fun acc item =>
           summary ← acc;
           status ← subscript item "status" ≫= as_str;
           n ← dict_lookup status summary;
           Some (dict_set status (n + 1) summary))
        (Some summary) items = None
  <-> exists item, item ∈ items
        ∧ forall status, status ∈ STATUSES -> subscript item "status" ≠ Some (VStr status).
Proof.
  induction items as [|item items IH]; intros summary Hkeys.
  - simpl. split; [done|]. by intros (? & ?%elem_of_nil & _).
  - cbn [foldl].
    destruct (subscript item "status" ≫= as_str) as [status|] eqn:Hst.
    + assert (subscript item "status" = Some (VStr status)) as Hsub.
      { destruct (subscript item "status") as [[| | |s| |]|]; try done.
        by injection Hst as ->. }
      cbn [mbind option_bind].
      destruct (decide (status ∈ STATUSES)) as [Hin|Hout].
      * destruct (dict_lookup_is_Some status summary) as [n Hn]; [by rewrite Hkeys|].
        rewrite Hn. cbn [mbind option_bind].
        rewrite IH by (by rewrite (dict_set_keys _ _ n)).
        split; intros (it & Hit & Hbad); exists it.
        -- split; [by apply list_elem_of_further|done].
        -- apply elem_of_cons in Hit as [-> | Hit]; [|done].
           exfalso. by apply (Hbad status).
      * rewrite dict_lookup_None by (by rewrite Hkeys). cbn [mbind option_bind].
        rewrite summarize_fold_None. split; [intros _|done].
        exists item. split; [apply list_elem_of_here|].
        intros status' Hin'. rewrite Hsub. intros [= <-]. done.
    + cbn [mbind option_bind]. rewrite summarize_fold_None. split; [intros _|done].
      exists item. split; [apply list_elem_of_here|].
      intros status Hin Hsub. by rewrite Hsub in Hst.
Qed.

(** [summarize] raises exactly when some item of the results has no status
    among the four of [STATUS] (a [KeyError] on the counter, or on the item
    itself). *)
Theorem summarize_raises_on_unknown_status (r : results) :
  summarize r = None
  <-> exists item, item ∈ r ≫= snd
        ∧ forall status, status ∈ STATUSES -> subscript item "status" ≠ Some (VStr status).
Proof. unfold summarize. by apply summarize_fold_raises. Qed.

End SummarizeErrors.

Section AddedColumns.
Import ScriptGenerator.

Lemma mapM_elem_of {A B} (f : A -> option B) xs ys x :
  mapM f xs = Some ys -> x ∈ xs -> exists y, f x = Some y ∧ y ∈ ys.
Proof.
  revert ys. induction xs as [|x' xs IH]; intros ys; [by intros _ ?%elem_of_nil|].
  simpl. destruct (f x') as [y'|] eqn:Hy'; simpl; [|done].
  destruct (mapM f xs) as [ys'|]; simpl; [|done].
  intros [= <-] [-> | Hin]%elem_of_cons.
  - exists y'. split; [done|apply list_elem_of_here].
  - destruct (IH ys' eq_refl Hin) as (y & Hy & Hin'). exists y.
    split; [done|by apply list_elem_of_further].
Qed.

(** What the forward script adds, the rollback script drops: when a table
    is altered and both scripts are generated for it, every column that
    [_compare_columns] reports as added gets its ALTER TABLE .. ADD with the
    full column definition in the forward lines and an ALTER TABLE .. DROP
    COLUMN of its name in the rollback lines. *)
Theorem added_columns_are_dropped_by_rollback (name : string) details source target
    added removed changed forward rollback :
  length (split name ".") = 2%nat ->
  get details "source" VNone = Some source ->
  get details "target" VNone = Some target ->
  _compare_columns (or_else source (VDict [])) (or_else target (VDict []))
  = Some (added, removed, changed) ->
  _alter_table_columns (VStr name) details = Some forward ->
  _rollback_table_columns (VStr name) details = Some rollback ->
  forall col, col ∈ added ->
    exists col_def col_name,
      _format_full_column_definition col = Some col_def
      ∧ get col "name" (VStr "") = Some col_name
      ∧ ("ALTER TABLE " +:+ name +:+ " ADD " +:+ col_def +:+ ";") ∈ forward
      ∧ ("ALTER TABLE " +:+ name +:+ " DROP COLUMN [" +:+ str col_name +:+ "];") ∈ rollback.
Proof.
  intros Hname Hsrc Htgt Hcmp Hfwd Hrb col Hcol.
  unfold _alter_table_columns in Hfwd. unfold _rollback_table_columns in Hrb.
  cbn [as_str mbind option_bind] in Hfwd, Hrb.
  rewrite Hname, Hsrc, Htgt in Hfwd, Hrb.
  cbn [Nat.eqb negb fmap option_fmap option_map mbind option_bind] in Hfwd, Hrb.
  rewrite Hcmp in Hfwd, Hrb. cbn [mbind option_bind] in Hfwd, Hrb.
  destruct added as [|col0 added']; [by apply elem_of_nil in Hcol|].
  set (added := col0 :: added') in *.
  destruct (mapM _ added) as [add_lines|] eqn:Hadd in Hfwd;
    cbn [mbind option_bind] in Hfwd; [|done].
  destruct (flat_mapM _ removed) as [drop_warn|] in Hfwd; cbn [mbind option_bind] in Hfwd; [|done].
  destruct (flat_mapM _ changed) as [change_lines|] in Hfwd;
    cbn [mbind option_bind] in Hfwd; [|done].
  injection Hfwd as <-.
  destruct (mapM _ added) as [drop_lines|] eqn:Hdrop in Hrb;
    cbn [mbind option_bind] in Hrb; [|done].
  destruct (columns_by_name _) as [tgt_cols|] in Hrb; cbn [mbind option_bind] in Hrb; [|done].
  destruct (flat_mapM _ removed) as [add_back|] in Hrb; cbn [mbind option_bind] in Hrb; [|done].
  destruct (mapM _ changed) as [alter_lines|] in Hrb; cbn [mbind option_bind] in Hrb; [|done].
  injection Hrb as <-.
  destruct (mapM_elem_of _ _ _ col Hadd Hcol) as (add_line & Hline & Hin).
  destruct (_format_full_column_definition col) as [col_def|]; [|done].
  destruct (mapM_elem_of _ _ _ col Hdrop Hcol) as (drop_line & Hline' & Hin').
  destruct (get col "name" (VStr "")) as [col_name|]; [|done].
  cbn [mbind option_bind] in Hline, Hline'.
  injection Hline as <-. injection Hline' as <-.
  exists col_def, col_name. split; [done|]. split; [done|].
  split.
  - apply list_elem_of_further. rewrite !elem_of_app. by left.
  - apply list_elem_of_further. rewrite !elem_of_app. by left.
Qed.

End AddedColumns.


Lemma added_columns_are_dropped_by_rollback_witness :
  let id_col := VDict [("name", VStr "id"); ("data_type", VStr "int");
                       ("is_nullable", VBool false)] in
  let note_col := VDict [("name", VStr "note"); ("data_type", VStr "nvarchar");
                         ("max_length", VInt 50)] in
  exists col_def col_name,
    ScriptGenerator._format_full_column_definition note_col = Some col_def
    ∧ get note_col "name" (VStr "") = Some col_name
    ∧ ("ALTER TABLE " +:+ "dbo.T" +:+ " ADD " +:+ col_def +:+ ";")
        ∈ ["PRINT 'Modifying table dbo.T...';";
           "ALTER TABLE dbo.T ADD [note] NVARCHAR(50) NULL;"; ""]
    ∧ ("ALTER TABLE " +:+ "dbo.T" +:+ " DROP COLUMN [" +:+ str col_name +:+ "];")
        ∈ ["PRINT 'Reverting column changes on dbo.T...';";
           "ALTER TABLE dbo.T DROP COLUMN [note];"; ""].
Proof.
  intros id_col note_col.
  pose (source := VDict [("columns", VList [id_col; note_col])]).
  pose (target := VDict [("columns", VList [id_col])]).
  pose (details := VDict [("source", source); ("target", target); ("diff", VStr "{}")]).
  apply (added_columns_are_dropped_by_rollback "dbo.T" details source target
           [note_col] [] []).
  - reflexivity.
  - reflexivity.
  - reflexivity.
  - vm_compute. reflexivity.
  - vm_compute. reflexivity.
  - vm_compute. reflexivity.
  - apply list_elem_of_here.
Defined.

Section NothingToDeploy.
Import ScriptGenerator Comparator.

Lemma foldl_invariant_In {A B} (P : A -> Prop) (f : A -> B -> A) l : forall init,
  (forall acc x, x ∈ l -> P acc -> P (f acc x)) -> P init -> P (foldl f init l).
Proof.
  induction l as [|x l IH]; intros init Hf Hinit; simpl; [done|].
  apply IH.
  - intros acc y Hy. apply Hf. by apply list_elem_of_further.
  - apply Hf; [apply list_elem_of_here|done].
Qed.

Variable set_order : list string -> list string.
Variable self : ScriptGenerator.t.
Hypothesis all_identical :
  forall obj_type it, it ∈ results_get (ScriptGenerator.results self) obj_type ->
    exists name details, it = item name IDENTICAL details.

Lemma identical_has_no_other_status obj_type status :
  status ∈ [MISSING_IN_TARGET; DIFFERENT; MISSING_IN_SOURCE] ->
  Forall (fun it => has_status status it = Some false)
         (results_get (ScriptGenerator.results self) obj_type).
Proof.
  intros Hst. apply Forall_forall. intros it Hit.
  destruct (all_identical _ _ Hit) as (name & details & ->).
  repeat (apply elem_of_cons in Hst as [-> | Hst]; [reflexivity|]).
  by apply elem_of_nil in Hst.
Qed.

Lemma identical_filter obj_type status :
  status ∈ [MISSING_IN_TARGET; DIFFERENT; MISSING_IN_SOURCE] ->
  filterM (has_status status) (results_get (ScriptGenerator.results self) obj_type) = Some [].
Proof. intros Hst. apply filterM_none. by apply identical_has_no_other_status. Qed.

Lemma omap_fmap_none {A B} (l : list A) :
  omap id ((fun _ : A => @None B) <$> l) = [].
Proof. by induction l. Qed.

Lemma identical_drop_phase :
  _generate_drop_phase self = Some (banner "-- PHASE 1: DROP EXTRA OBJECTS (MISSING_IN_SOURCE)").
Proof.
  unfold _generate_drop_phase.
  rewrite (flat_mapM_Some table_fks_to_drop (fun _ => [])).
  2:{ apply Forall_forall. intros it Hit.
      destruct (all_identical _ _ Hit) as (name & details & ->). reflexivity. }
  rewrite bind_nil. cbn [mbind option_bind].
  rewrite (flat_mapM_Some _ (fun _ => [])).
  2:{ apply Forall_forall. intros obj_type _.
      rewrite identical_filter; [done|]. do 2 apply list_elem_of_further. apply list_elem_of_here. }
  rewrite bind_nil. cbn [mbind option_bind]. by rewrite !app_nil_r.
Qed.

Lemma identical_table_phase :
  _generate_table_phase self = Some (banner "-- PHASE 2: TABLES AND COLUMNS").
Proof.
  unfold _generate_table_phase.
  rewrite (identical_filter "tables" MISSING_IN_TARGET) by apply list_elem_of_here.
  cbn [mbind option_bind].
  rewrite (identical_filter "tables" DIFFERENT)
    by apply list_elem_of_further, list_elem_of_here.
  cbn [mbind option_bind]. by rewrite !app_nil_r.
Qed.

Lemma identical_constraint_phase :
  _generate_constraint_phase self = Some (banner "-- PHASE 3: CONSTRAINTS AND INDEXES").
Proof.
  unfold _generate_constraint_phase, new_items_block.
  rewrite (mapM_Some_fmap table_constraints (fun _ => None)).
  2:{ apply Forall_forall. intros it Hit.
      destruct (all_identical _ _ Hit) as (name & details & ->). reflexivity. }
  cbn [fmap option_fmap option_map mbind option_bind].
  rewrite omap_fmap_none. cbn [omap list_omap mbind list_bind option_bind].
  rewrite !(identical_filter _ MISSING_IN_TARGET) by apply list_elem_of_here.
  reflexivity.
Qed.

Lemma identical_programmability_phase :
  _generate_programmability_phase set_order self
  = Some (banner "-- PHASE 4: PROGRAMMABILITY OBJECTS").
Proof.
  unfold _generate_programmability_phase, _ordered_programmability_items.
  assert (collect_nodes self = Some []) as ->; [|reflexivity].
  unfold collect_nodes.
  apply (foldl_invariant (fun acc => acc = Some [])); [|done].
  intros acc obj_type ->.
  apply (foldl_invariant_In (fun acc => acc = Some [])); [|done].
  intros acc it Hit ->.
  destruct (all_identical _ _ Hit) as (name & details & ->). reflexivity.
Qed.

Lemma identical_misc_phase :
  _generate_misc_phase self = Some (banner "-- PHASE 5: MISCELLANEOUS OBJECTS").
Proof.
  unfold _generate_misc_phase.
  rewrite (identical_filter "synonyms" MISSING_IN_TARGET) by apply list_elem_of_here.
  reflexivity.
Qed.

Lemma identical_rollback :
  _generate_rollback self
  = _generate_rollback (mk [] (source_metadata self) (target_db self) (deploy_options self)).
Proof.
  unfold _generate_rollback.
  rewrite (identical_filter "tables" MISSING_IN_TARGET) by apply list_elem_of_here.
  rewrite (identical_filter "tables" DIFFERENT)
    by apply list_elem_of_further, list_elem_of_here.
  reflexivity.
Qed.

Lemma identical_generate :
  generate set_order self
  = generate set_order (mk [] (source_metadata self) (target_db self) (deploy_options self)).
Proof.
  unfold generate, forward_lines, phase_lines.
  rewrite identical_drop_phase, identical_table_phase, identical_constraint_phase,
    identical_programmability_phase, identical_misc_phase, identical_rollback.
  reflexivity.
Qed.

(** Nothing to deploy: when every item of the comparison is IDENTICAL, each
    of the five phases is only its banner, and the script that [generate]
    returns is the script of an empty comparison (for the same options,
    metadata and target database). *)
Theorem identical_results_need_no_statement :
  _generate_drop_phase self
  = Some (banner "-- PHASE 1: DROP EXTRA OBJECTS (MISSING_IN_SOURCE)")
  ∧ _generate_table_phase self = Some (banner "-- PHASE 2: TABLES AND COLUMNS")
  ∧ _generate_constraint_phase self = Some (banner "-- PHASE 3: CONSTRAINTS AND INDEXES")
  ∧ _generate_programmability_phase set_order self
    = Some (banner "-- PHASE 4: PROGRAMMABILITY OBJECTS")
  ∧ _generate_misc_phase self = Some (banner "-- PHASE 5: MISCELLANEOUS OBJECTS")
  ∧ generate set_order self
    = generate set_order (mk [] (source_metadata self) (target_db self) (deploy_options self)).
Proof.
  split; [exact identical_drop_phase|]. split; [exact identical_table_phase|].
  split; [exact identical_constraint_phase|].
  split; [exact identical_programmability_phase|].
  split; [exact identical_misc_phase|]. exact identical_generate.
Qed.

End NothingToDeploy.


Lemma identical_results_need_no_statement_witness :
  let self := ScriptGenerator.init
                [("tables", [Comparator.item "dbo.T" Comparator.IDENTICAL
                               (VDict [("columns", VList [VDict [("name", VStr "id")]])])]);
                 ("views", [Comparator.item "dbo.v" Comparator.IDENTICAL
                              (VDict [("definition", VStr "CREATE VIEW dbo.v AS SELECT 1 AS x")])])]
                (VDict []) "Db" None in
  ScriptGenerator._generate_drop_phase self
  = Some (ScriptGenerator.banner "-- PHASE 1: DROP EXTRA OBJECTS (MISSING_IN_SOURCE)")
  ∧ ScriptGenerator._generate_table_phase self
    = Some (ScriptGenerator.banner "-- PHASE 2: TABLES AND COLUMNS")
  ∧ ScriptGenerator._generate_constraint_phase self
    = Some (ScriptGenerator.banner "-- PHASE 3: CONSTRAINTS AND INDEXES")
  ∧ ScriptGenerator._generate_programmability_phase id self
    = Some (ScriptGenerator.banner "-- PHASE 4: PROGRAMMABILITY OBJECTS")
  ∧ ScriptGenerator._generate_misc_phase self
    = Some (ScriptGenerator.banner "-- PHASE 5: MISCELLANEOUS OBJECTS")
  ∧ ScriptGenerator.generate id self
    = ScriptGenerator.generate id
        (ScriptGenerator.mk [] (ScriptGenerator.source_metadata self)
           (ScriptGenerator.target_db self) (ScriptGenerator.deploy_options self)).
Proof.
  intros self. apply (identical_results_need_no_statement id self).
  intros obj_type it. unfold Comparator.results_get, self, ScriptGenerator.init.
  cbn [ScriptGenerator.results dict_lookup].
  destruct (String.eqb obj_type "tables").
  - intros ->%list_elem_of_singleton. by eexists _, _.
  - destruct (String.eqb obj_type "views").
    + intros ->%list_elem_of_singleton. by eexists _, _.
    + by intros ?%elem_of_nil.
Defined.

Section SameDatabase.
Import ScriptGenerator Comparator.

Variable diff_body : value -> value -> string.
Variable set_order : list string -> list string.

Lemma compare_itself_items (source : snapshot) obj_type it :
  (forall key r, default ∅ (source !! obj_type) !! key = Some r -> wf r = true) ->
  it ∈ compare_type diff_body source source obj_type ->
  exists name details, it = item name IDENTICAL details.
Proof.
  intros Hwf. unfold compare_type. rewrite union_idemp_L.
  intros (key & -> & Hkey)%list_elem_of_fmap.
  apply sorted_elem_of, elem_of_dom in Hkey as [r Hr].
  exists key, r. unfold compare_key, _diff. rewrite Hr. simpl.
  rewrite (deep_same_refl r) by (by apply (Hwf key)).
  by destruct (truthy r).
Qed.

(** A database deployed onto itself: for a snapshot whose records hold dicts
    with distinct keys, the script generated from its comparison with itself
    is the script of an empty comparison, with no statement in any phase. *)
Theorem snapshot_against_itself_needs_no_statement (source : snapshot)
    source_metadata target_db deploy_options :
  (forall obj_type key r, default ∅ (source !! obj_type) !! key = Some r -> wf r = true) ->
  generate set_order
    (init (compare diff_body source source) source_metadata target_db deploy_options)
  = generate set_order (init [] source_metadata target_db deploy_options).
Proof.
  intros Hwf.
  rewrite (identical_generate set_order
             (init (compare diff_body source source) source_metadata target_db deploy_options)).
  - reflexivity.
  - intros obj_type it. unfold results_get, init. cbn [ScriptGenerator.results].
    destruct (decide (obj_type ∈ OBJ_TYPES)) as [Hin|Hout].
    + rewrite compare_lookup by done. cbn [default from_option id].
      apply compare_itself_items. apply Hwf.
    + rewrite dict_lookup_None; [by intros ?%elem_of_nil|].
      by replace (fst <$> compare diff_body source source) with OBJ_TYPES.
Qed.

End SameDatabase.


Lemma snapshot_against_itself_needs_no_statement_witness :
  let source : Comparator.snapshot :=
    {[ "tables" := {[ "dbo.A" := VDict [("columns", VList [VDict [("name", VStr "id")]])] ]};
       "views" := {[ "dbo.v" := VDict [("definition", VStr "CREATE VIEW dbo.v AS SELECT 1 AS x")] ]} ]} in
  ScriptGenerator.generate id
    (ScriptGenerator.init (Comparator.compare (fun _ _ => "") source source) (VDict []) "Db" None)
  = ScriptGenerator.generate id (ScriptGenerator.init [] (VDict []) "Db" None).
Proof.
  intros source.
  apply (snapshot_against_itself_needs_no_statement (fun _ _ => "") id source).
  intros obj_type key r. unfold source.
  destruct (decide (obj_type = "tables")) as [-> | Hne1].
  - rewrite lookup_insert_eq. cbn [default from_option id].
    intros [_ <-]%lookup_singleton_Some. reflexivity.
  - rewrite lookup_insert_ne by done.
    destruct (decide (obj_type = "views")) as [-> | Hne2].
    + rewrite lookup_singleton_eq. cbn [default from_option id].
      intros [_ <-]%lookup_singleton_Some. reflexivity.
    + rewrite lookup_singleton_ne by done. cbn [default from_option id].
      by rewrite lookup_empty.
Defined.
